(** * Selective Repeat sender and receiver (sr.c): a shallow embedding

    The development follows [src/sr.c].  The C translation unit keeps all of
    its data in file-scope variables; here they are the fields of one record
    [state], and every entry point of the protocol ([A_output], [A_input],
    [A_timerinterrupt], [A_init], [B_input], [B_init]) is a function from a
    state to the next state together with the list of calls it makes into
    the emulator ([tolayer3], [tolayer5], [starttimer], [stoptimer]), in the
    order in which they are made.  An access outside an array is undefined
    in C; the embedding returns [None] there.  The [printf] calls guarded by
    [TRACE] only write the trace and are left out. *)

From stdpp Require Import base numbers list option.

Open Scope Z_scope.

(** ** C integers *)

(** [int] is modelled as a 32-bit two's complement integer: the result of
    an addition or subtraction is brought back into [INT_MIN..INT_MAX].
    [%] is the remainder of the division that truncates towards zero, and
    [!x] is true exactly when [x] is zero. *)
Module CInt.

Definition INT_MIN : Z := - 2 ^ 31.
Definition INT_MAX : Z := 2 ^ 31 - 1.

Definition in_range (z : Z) : Prop := INT_MIN <= z <= INT_MAX.

Definition wrap (z : Z) : Z := (z + 2 ^ 31) mod 2 ^ 32 - 2 ^ 31.

Definition add (a b : Z) : Z := wrap (a + b).
Definition sub (a b : Z) : Z := wrap (a - b).
Definition rem (a b : Z) : Z := Z.rem a b.
Definition lnot (a : Z) : bool := a =? 0.

End CInt.

Declare Scope cint_scope.
Delimit Scope cint_scope with cint.
Infix "+i" := CInt.add (at level 50, left associativity) : cint_scope.
Infix "-i" := CInt.sub (at level 50, left associativity) : cint_scope.
Infix "%i" := CInt.rem (at level 40, left associativity) : cint_scope.
Open Scope cint_scope.

(** ** Packets and messages *)

(** Modelled from the spec: [struct pkt] and [struct msg] are declared in
    [emulator.h], which is not among the sources.  A packet has the fields
    [seqnum], [acknum], [checksum] and a 20-character [payload]; a message
    has 20 characters of [data].  A character is kept as the integer the
    conversion [(int)c] gives. *)
Record pkt : Type := Pkt {
  seqnum : Z;
  acknum : Z;
  checksum : Z;
  payload : list Z
}.

Record msg : Type := Msg { data : list Z }.

Definition PAYLOAD_LEN : nat := 20.

(** A character converts to an integer between [-128] and [255], whichever
    signedness [char] has. *)
Definition is_char (c : Z) : Prop := -128 <= c <= 255.

Definition pkt_wf (p : pkt) : Prop :=
  CInt.in_range (seqnum p) /\ CInt.in_range (acknum p) /\
  CInt.in_range (checksum p) /\
  length (payload p) = PAYLOAD_LEN /\ Forall is_char (payload p).

Definition msg_wf (m : msg) : Prop :=
  length (data m) = PAYLOAD_LEN /\ Forall is_char (data m).

(** Both are decidable, so that they can be checked on a given packet by
    computation. *)
#[local] Instance is_char_dec c : Decision (is_char c).
Proof. unfold is_char. apply _. Defined.

#[local] Instance in_range_dec z : Decision (CInt.in_range z).
Proof. unfold CInt.in_range. apply _. Defined.

#[local] Instance pkt_wf_dec p : Decision (pkt_wf p).
Proof. unfold pkt_wf. apply _. Defined.

Definition set_seqnum (v : Z) (p : pkt) : pkt :=
  Pkt v (acknum p) (checksum p) (payload p).
Definition set_acknum (v : Z) (p : pkt) : pkt :=
  Pkt (seqnum p) v (checksum p) (payload p).
Definition set_checksum (v : Z) (p : pkt) : pkt :=
  Pkt (seqnum p) (acknum p) v (payload p).
Definition set_payload (v : list Z) (p : pkt) : pkt :=
  Pkt (seqnum p) (acknum p) (checksum p) v.

(** ** Protocol constants of sr.c *)

(** [RTT] is the floating-point constant [16.0]; it is only handed on to
    [starttimer], and is kept here as the integer 16. *)
Definition RTT : Z := 16.
Definition WINDOWSIZE : Z := 6.
Definition SEQSPACE : Z := 7.
Definition NOTINUSE : Z := -1.

(** ** Checksum *)

(** [ComputeChecksum]: the sequence number, plus the acknowledgement
    number, plus each of the 20 payload characters in turn.  The loop reads
    [payload[0]] to [payload[19]]; a payload is an array of 20 characters
    ([pkt_wf]). *)
Definition ComputeChecksum (packet : pkt) : Z :=
  fold_left CInt.add (take PAYLOAD_LEN (payload packet))
            (seqnum packet +i acknum packet).

(** [IsCorrupted] returns [-1] when the stored checksum equals the
    recomputed one and [0] otherwise. *)
Definition IsCorrupted (packet : pkt) : Z :=
  if checksum packet =? ComputeChecksum packet then -1 else 0.

(** ** The file-scope variables *)

(** The two sides of the emulator. *)
Inductive entity : Type := A | B.

(** The calls into the emulator, in the order in which they are made. *)
Inductive event : Type :=
| tolayer3 (from : entity) (packet : pkt)
| tolayer5 (at_ : entity) (datasent : list Z)
| starttimer (who : entity) (increment : Z)
| stoptimer (who : entity).

(** sr.c declares [static int windowfirst] twice at file scope, once with
    the sender's variables and once with the receiver's: in C these are
    one and the same object, and so it is one field here.  The counters
    [window_full], [total_ACKs_received], [new_ACKs], [packets_resent] and
    [packets_received] are the emulator's. *)
Record state : Type := State {
  buffer : list pkt;
  windowfirst : Z;
  windowlast : Z;
  windowcount : Z;
  A_nextseqnum : Z;
  expectedseqnum : Z;
  B_nextseqnum : Z;
  buffer_b : list pkt;
  receivelast : Z;
  window_full : Z;
  total_ACKs_received : Z;
  new_ACKs : Z;
  packets_resent : Z;
  packets_received : Z
}.

Definition set_buffer (v : list pkt) (s : state) : state :=
  State v (windowfirst s) (windowlast s) (windowcount s) (A_nextseqnum s)
        (expectedseqnum s) (B_nextseqnum s) (buffer_b s) (receivelast s)
        (window_full s) (total_ACKs_received s) (new_ACKs s)
        (packets_resent s) (packets_received s).
Definition set_windowfirst (v : Z) (s : state) : state :=
  State (buffer s) v (windowlast s) (windowcount s) (A_nextseqnum s)
        (expectedseqnum s) (B_nextseqnum s) (buffer_b s) (receivelast s)
        (window_full s) (total_ACKs_received s) (new_ACKs s)
        (packets_resent s) (packets_received s).
Definition set_windowlast (v : Z) (s : state) : state :=
  State (buffer s) (windowfirst s) v (windowcount s) (A_nextseqnum s)
        (expectedseqnum s) (B_nextseqnum s) (buffer_b s) (receivelast s)
        (window_full s) (total_ACKs_received s) (new_ACKs s)
        (packets_resent s) (packets_received s).
Definition set_windowcount (v : Z) (s : state) : state :=
  State (buffer s) (windowfirst s) (windowlast s) v (A_nextseqnum s)
        (expectedseqnum s) (B_nextseqnum s) (buffer_b s) (receivelast s)
        (window_full s) (total_ACKs_received s) (new_ACKs s)
        (packets_resent s) (packets_received s).
Definition set_A_nextseqnum (v : Z) (s : state) : state :=
  State (buffer s) (windowfirst s) (windowlast s) (windowcount s) v
        (expectedseqnum s) (B_nextseqnum s) (buffer_b s) (receivelast s)
        (window_full s) (total_ACKs_received s) (new_ACKs s)
        (packets_resent s) (packets_received s).
Definition set_expectedseqnum (v : Z) (s : state) : state :=
  State (buffer s) (windowfirst s) (windowlast s) (windowcount s)
        (A_nextseqnum s) v (B_nextseqnum s) (buffer_b s) (receivelast s)
        (window_full s) (total_ACKs_received s) (new_ACKs s)
        (packets_resent s) (packets_received s).
Definition set_B_nextseqnum (v : Z) (s : state) : state :=
  State (buffer s) (windowfirst s) (windowlast s) (windowcount s)
        (A_nextseqnum s) (expectedseqnum s) v (buffer_b s) (receivelast s)
        (window_full s) (total_ACKs_received s) (new_ACKs s)
        (packets_resent s) (packets_received s).
Definition set_buffer_b (v : list pkt) (s : state) : state :=
  State (buffer s) (windowfirst s) (windowlast s) (windowcount s)
        (A_nextseqnum s) (expectedseqnum s) (B_nextseqnum s) v (receivelast s)
        (window_full s) (total_ACKs_received s) (new_ACKs s)
        (packets_resent s) (packets_received s).
Definition set_receivelast (v : Z) (s : state) : state :=
  State (buffer s) (windowfirst s) (windowlast s) (windowcount s)
        (A_nextseqnum s) (expectedseqnum s) (B_nextseqnum s) (buffer_b s) v
        (window_full s) (total_ACKs_received s) (new_ACKs s)
        (packets_resent s) (packets_received s).
Definition set_window_full (v : Z) (s : state) : state :=
  State (buffer s) (windowfirst s) (windowlast s) (windowcount s)
        (A_nextseqnum s) (expectedseqnum s) (B_nextseqnum s) (buffer_b s)
        (receivelast s) v (total_ACKs_received s) (new_ACKs s)
        (packets_resent s) (packets_received s).
Definition set_total_ACKs_received (v : Z) (s : state) : state :=
  State (buffer s) (windowfirst s) (windowlast s) (windowcount s)
        (A_nextseqnum s) (expectedseqnum s) (B_nextseqnum s) (buffer_b s)
        (receivelast s) (window_full s) v (new_ACKs s)
        (packets_resent s) (packets_received s).
Definition set_new_ACKs (v : Z) (s : state) : state :=
  State (buffer s) (windowfirst s) (windowlast s) (windowcount s)
        (A_nextseqnum s) (expectedseqnum s) (B_nextseqnum s) (buffer_b s)
        (receivelast s) (window_full s) (total_ACKs_received s) v
        (packets_resent s) (packets_received s).
Definition set_packets_resent (v : Z) (s : state) : state :=
  State (buffer s) (windowfirst s) (windowlast s) (windowcount s)
        (A_nextseqnum s) (expectedseqnum s) (B_nextseqnum s) (buffer_b s)
        (receivelast s) (window_full s) (total_ACKs_received s) (new_ACKs s)
        v (packets_received s).
Definition set_packets_received (v : Z) (s : state) : state :=
  State (buffer s) (windowfirst s) (windowlast s) (windowcount s)
        (A_nextseqnum s) (expectedseqnum s) (B_nextseqnum s) (buffer_b s)
        (receivelast s) (window_full s) (total_ACKs_received s) (new_ACKs s)
        (packets_resent s) v.

(** ** Arrays *)

(** [arr[i]] as a value, and [arr[i] = v]; both are undefined unless
    [0 <= i < length arr]. *)
Definition rd {X : Type} (arr : list X) (i : Z) : option X :=
  if bool_decide (0 <= i) then arr !! Z.to_nat i else None.

Definition wr {X : Type} (arr : list X) (i : Z) (v : X) : option (list X) :=
  if bool_decide (0 <= i < Z.of_nat (length arr))
  then Some (<[Z.to_nat i := v]> arr) else None.

(** [strcmp(a, b) != 0] on two character arrays: the comparison stops at
    the first difference or at a terminating zero.  When it would run past
    the end of an array the result is undefined. *)
Fixpoint strcmp_ne (a b : list Z) : option bool :=
  match a, b with
  | x :: a', y :: b' =>
      if x =? y then (if x =? 0 then Some false else strcmp_ne a' b')
      else Some true
  | _, _ => None
  end.

(** The string literal [""]. *)
Definition empty_string : list Z := [0].

(** ** The window test *)

(** The last sequence number of the window that starts at [first]. *)
Definition window_last (first : Z) : Z :=
  (first +i WINDOWSIZE -i 1) %i SEQSPACE.

(** The test written out three times in sr.c, for the two cases of a window
    that does not wrap and of one that does. *)
Definition in_window (seqfirst seqlast x : Z) : bool :=
  ((seqfirst <=? seqlast) && ((seqfirst <=? x) && (x <=? seqlast))) ||
  ((seqlast <? seqfirst) && ((seqfirst <=? x) || (x <=? seqlast))).

(** ** Sender *)

Definition make_sendpkt (seq : Z) (message : msg) : pkt :=
  let sendpkt := Pkt seq NOTINUSE 0 (take PAYLOAD_LEN (data message)) in
  set_checksum (ComputeChecksum sendpkt) sendpkt.

Definition A_output (message : msg) (s : state) : option (state * list event) :=
  let seqfirst := windowfirst s in
  let seqlast := window_last (windowfirst s) in
  if in_window seqfirst seqlast (A_nextseqnum s) then
    let sendpkt := make_sendpkt (A_nextseqnum s) message in
    let buf_index :=
      if windowfirst s <=? A_nextseqnum s
      then A_nextseqnum s -i seqfirst
      else WINDOWSIZE -i seqfirst +i A_nextseqnum s in
    buffer' ← wr (buffer s) buf_index sendpkt;
    let s1 := set_buffer buffer' s in
    let s2 := set_windowcount (windowcount s1 +i 1) s1 in
    let timer := if windowcount s2 =? 1 then [starttimer A RTT] else [] in
    let s3 := set_A_nextseqnum ((A_nextseqnum s2 +i 1) %i SEQSPACE) s2 in
    Some (s3, tolayer3 A sendpkt :: timer)
  else
    Some (set_window_full (window_full s +i 1) s, []).

(** The loop that counts the acknowledged slots at the front of [buffer]:
    [fuel] iterations are left, [i] is the loop index. *)
Fixpoint count_slide (fuel : nat) (i : Z) (buf : list pkt) (slide : Z)
  : option Z :=
  match fuel with
  | O => Some slide
  | S fuel' =>
      p ← rd buf i;
      if acknum p =? NOTINUSE then Some slide
      else count_slide fuel' (i + 1) buf (slide +i 1)
  end.

(** [for (i = ...; ...; i++) buffer[i] = buffer[i + slide];] *)
Fixpoint shift_loop (fuel : nat) (i : Z) (slide : Z) (buf : list pkt)
  : option (list pkt) :=
  match fuel with
  | O => Some buf
  | S fuel' =>
      p ← rd buf (i +i slide);
      buf' ← wr buf i p;
      shift_loop fuel' (i + 1) slide buf'
  end.

(** [buffer[i].acknum = NOTINUSE; memset(buffer[i].payload, 0, ...)] *)
Definition clear_slot (p : pkt) : pkt :=
  set_payload (replicate PAYLOAD_LEN 0) (set_acknum NOTINUSE p).

Fixpoint clear_loop (fuel : nat) (i : Z) (buf : list pkt)
  : option (list pkt) :=
  match fuel with
  | O => Some buf
  | S fuel' =>
      p ← rd buf i;
      buf' ← wr buf i (clear_slot p);
      clear_loop fuel' (i + 1) buf'
  end.

(** The number of iterations of [for (i = lo; i < hi; i++)]. *)
Definition iterations (lo hi : Z) : nat := Z.to_nat (hi - lo).

(** The part of [A_input] after the bookkeeping of the acknowledgement:
    count, and slide when the count is positive. *)
Definition try_slide (s : state) : option (state * list event) :=
  slide ← count_slide (iterations 0 WINDOWSIZE) 0 (buffer s) 0;
  if 0 <? slide then
    let s1 := set_windowfirst ((windowfirst s +i slide) %i SEQSPACE) s in
    shifted ← shift_loop (iterations 0 (WINDOWSIZE -i slide)) 0 slide
                         (buffer s1);
    cleared ← clear_loop (iterations (WINDOWSIZE -i slide) WINDOWSIZE)
                         (WINDOWSIZE -i slide) shifted;
    let s2 := set_buffer cleared s1 in
    let timer := if 0 <? windowcount s2 then [starttimer A RTT] else [] in
    Some (s2, stoptimer A :: timer)
  else Some (s, []).

(** The acknowledgement is recorded in the slot [index] unless the slot
    holds one already. *)
Definition mark_acked (index : Z) (packet : pkt) (s : state) : option state :=
  slot ← rd (buffer s) index;
  if acknum slot =? NOTINUSE then
    buffer' ← wr (buffer s) index (set_acknum (acknum packet) slot);
    let s1 := set_buffer buffer' s in
    let s2 := set_windowcount (windowcount s1 -i 1) s1 in
    Some (set_new_ACKs (new_ACKs s2 +i 1) s2)
  else Some s.

Definition A_input (packet : pkt) (s : state) : option (state * list event) :=
  let seqfirst := windowfirst s in
  let seqlast := window_last (windowfirst s) in
  if CInt.lnot (IsCorrupted packet) then
    let s1 := set_total_ACKs_received (total_ACKs_received s +i 1) s in
    if in_window seqfirst seqlast (acknum packet) then
      let index :=
        if seqfirst <=? acknum packet
        then acknum packet -i seqfirst
        else WINDOWSIZE -i (seqfirst -i acknum packet) in
      s2 ← mark_acked index packet s1;
      try_slide s2
    else Some (s1, [])
  else Some (s, []).

Definition A_timerinterrupt (s : state) : option (state * list event) :=
  if 0 <? windowcount s then
    base ← rd (buffer s) 0;
    Some (set_packets_resent (packets_resent s +i 1) s,
          [tolayer3 A base; starttimer A RTT])
  else Some (s, []).

Definition A_init (s : state) : state :=
  set_windowcount 0
    (set_windowlast (-1)
       (set_windowfirst 0
          (set_A_nextseqnum 0 s))).

(** ** Receiver *)

(** The acknowledgement packet built by [B_input]: no sequence number, a
    payload of 20 characters ['0'], and the checksum of the whole. *)
Definition make_ackpkt (ack : Z) : pkt :=
  let sendpkt := Pkt NOTINUSE ack 0 (replicate PAYLOAD_LEN 48) in
  set_checksum (ComputeChecksum sendpkt) sendpkt.

(** The loop that counts the occupied slots at the front of [buffer_b]. *)
Fixpoint count_received (fuel : nat) (i : Z) (buf : list pkt) (pckcount : Z)
  : option Z :=
  match fuel with
  | O => Some pckcount
  | S fuel' =>
      p ← rd buf i;
      if 0 <=? acknum p then
        nonempty ← strcmp_ne (payload p) empty_string;
        if nonempty : bool
        then count_received fuel' (i + 1) buf (pckcount +i 1)
        else Some pckcount
      else Some pckcount
  end.

(** [for (i = 0; i < WINDOWSIZE; i++)
       if ((i + pckcount) <= (receivelast + 1))
         buffer_b[i] = buffer_b[i + pckcount];] *)
Fixpoint shift_b_loop (fuel : nat) (i : Z) (pckcount last : Z)
  (buf : list pkt) : option (list pkt) :=
  match fuel with
  | O => Some buf
  | S fuel' =>
      if i +i pckcount <=? last +i 1 then
        p ← rd buf (i +i pckcount);
        buf' ← wr buf i p;
        shift_b_loop fuel' (i + 1) pckcount last buf'
      else shift_b_loop fuel' (i + 1) pckcount last buf
  end.

(** What [B_input] does when the packet just stored is the one at the base
    of the window. *)
Definition deliver_run (s : state) : option state :=
  pckcount ← count_received (iterations 0 WINDOWSIZE) 0 (buffer_b s) 0;
  let s1 := set_windowfirst ((windowfirst s +i pckcount) %i SEQSPACE) s in
  shifted ← shift_b_loop (iterations 0 WINDOWSIZE) 0 pckcount
                          (receivelast s1) (buffer_b s1);
  Some (set_buffer_b shifted s1).

Definition B_input (packet : pkt) (s : state) : option (state * list event) :=
  if CInt.lnot (IsCorrupted packet) && (seqnum packet =? expectedseqnum s)
  then
    let s1 := set_packets_received (packets_received s +i 1) s in
    let delivered := tolayer5 B (payload packet) in
    let sendpkt := make_ackpkt (expectedseqnum s1) in
    let acked := tolayer3 B sendpkt in
    let seqfirst := windowfirst s1 in
    let seqlast := window_last (windowfirst s1) in
    if in_window seqfirst seqlast (seqnum packet) then
      let index :=
        if seqfirst <=? seqnum packet
        then seqnum packet -i seqfirst
        else WINDOWSIZE -i seqfirst +i seqnum packet in
      let s2 :=
        set_receivelast
          (if index <? receivelast s1 then receivelast s1 else index) s1 in
      slot ← rd (buffer_b s2) index;
      differs ← strcmp_ne (payload slot) (payload packet);
      if differs : bool then
        let packet' := set_acknum (seqnum packet) packet in
        buffer_b' ← wr (buffer_b s2) index packet';
        let s3 := set_buffer_b buffer_b' s2 in
        s4 ← (if seqnum packet' =? seqfirst then deliver_run s3 else Some s3);
        Some (s4, [delivered; acked; tolayer5 B (payload packet')])
      else Some (s2, [delivered; acked])
    else Some (s1, [delivered; acked])
  else Some (s, []).

Definition B_init (s : state) : state :=
  set_B_nextseqnum 1 (set_expectedseqnum 0 s).

(** ** The state at program start *)

(** Objects with static storage duration start out as zero; so do the
    counters of the emulator. *)
Definition zero_pkt : pkt := Pkt 0 0 0 (replicate PAYLOAD_LEN 0).

Definition zero_state : state :=
  State (replicate (Z.to_nat WINDOWSIZE) zero_pkt) 0 0 0 0
        0 0 (replicate (Z.to_nat WINDOWSIZE) zero_pkt) 0
        0 0 0 0 0.

Definition initial_state : state := B_init (A_init zero_state).

(** ** Runs *)

(** The calls the emulator makes into the protocol. *)
Inductive input : Type :=
| Call_A_output (message : msg)
| Call_A_input (packet : pkt)
| Call_A_timerinterrupt
| Call_B_input (packet : pkt).

Definition step (i : input) (s : state) : option (state * list event) :=
  match i with
  | Call_A_output m => A_output m s
  | Call_A_input p => A_input p s
  | Call_A_timerinterrupt => A_timerinterrupt s
  | Call_B_input p => B_input p s
  end.

Fixpoint run (calls : list input) (s : state)
  : option (state * list event) :=
  match calls with
  | [] => Some (s, [])
  | i :: calls' =>
      '(s1, out1) ← step i s;
      '(s2, out2) ← run calls' s1;
      Some (s2, out1 ++ out2)
  end.

(** The properties of a state that the array types of sr.c guarantee. *)
Definition state_wf (s : state) : Prop :=
  length (buffer s) = Z.to_nat WINDOWSIZE /\
  length (buffer_b s) = Z.to_nat WINDOWSIZE.

(** ** Notions used in the statements *)

(** The sum of a list of integers, without wrap-around. *)
Definition sumZ (l : list Z) : Z := foldr Z.add 0 l.

(** Membership in the cyclic window, as the specification words it: [x]
    lies at most [WINDOWSIZE - 1] places after [base], counting modulo
    [SEQSPACE]. *)
Definition in_cyclic_window_spec (base x : Z) : bool :=
  (x - base) mod SEQSPACE <? WINDOWSIZE.

Definition is_seqnum (x : Z) : Prop := 0 <= x < SEQSPACE.

(** The variables of the sender that the entry points keep in shape: the
    array has its six slots, and the base and the next sequence number are
    sequence numbers. *)
Definition sender_ok (s : state) : Prop :=
  length (buffer s) = Z.to_nat WINDOWSIZE /\
  is_seqnum (windowfirst s) /\ is_seqnum (A_nextseqnum s).

(** The timer calls among the events, and the payloads handed to layer 5
    and the packets handed to layer 3 by one side. *)
Definition is_timer_event (e : event) : bool :=
  match e with
  | starttimer _ _ | stoptimer _ => true
  | _ => false
  end.

Definition timer_events (out : list event) : list event :=
  filter (fun e => is_timer_event e = true) out.

Definition sent_by (who : entity) (out : list event) : list pkt :=
  omap (fun e => match e, who with
                 | tolayer3 A p, A | tolayer3 B p, B => Some p
                 | _, _ => None
                 end) out.

Definition delivered (out : list event) : list (list Z) :=
  omap (fun e => match e with
                 | tolayer5 _ d => Some d
                 | _ => None
                 end) out.

(** ** Concrete packets and runs *)

(** A message of twenty ['a'], and the packet [A_output] makes of it with
    sequence number 0. *)
Definition msg_of (c : Z) : msg := Msg (replicate PAYLOAD_LEN c).

Definition data_pkt0 : pkt := make_sendpkt 0 (msg_of 97).

(** The same packet after the channel has overwritten its first payload
    character with ['z']; the checksum field is as it was sent. *)
Definition garbled_pkt0 : pkt :=
  set_payload (122 :: replicate 19 97) data_pkt0.

(** The second packet of the sender, garbled on the way. *)
Definition garbled_pkt1 : pkt :=
  set_payload (122 :: replicate 19 98) (make_sendpkt 1 (msg_of 98)).

(** An acknowledgement as [B_input] builds it, and the same after the
    channel has overwritten its first payload character. *)
Definition garbled_ack (a : Z) : pkt :=
  set_payload (122 :: replicate 19 48) (make_ackpkt a).

(** Six messages fill the window; the six acknowledgements then move the
    base to 6; three more messages are sent with the sequence numbers 6, 0
    and 1. *)
Definition six_sends : list input :=
  map (fun c => Call_A_output (msg_of c)) [97; 98; 99; 100; 101; 102].

Definition six_acks : list input :=
  map (fun a => Call_A_input (garbled_ack a)) [0; 1; 2; 3; 4; 5].

Definition three_sends : list input :=
  map (fun c => Call_A_output (msg_of c)) [103; 104; 105].

Definition state_of (r : option (state * list event)) : state :=
  match r with
  | Some (s, _) => s
  | None => zero_state
  end.

Definition base6_state : state :=
  state_of (run (six_sends ++ six_acks ++ three_sends) initial_state).

(** The sender after its first message. *)
Definition one_sent_state : state :=
  state_of (A_output (msg_of 97) initial_state).

(** Slot 0 of [buffer] holds the oldest packet that is not acknowledged:
    a packet without an acknowledgement that carries the sequence number
    at the base of the window. *)
Definition base_slot_holds_oldest (s : state) (base : pkt) : Prop :=
  buffer s !! 0%nat = Some base /\
  acknum base = NOTINUSE /\ seqnum base = windowfirst s.




(** A first message and its acknowledgement, and a second message. *)
Definition second_sent_state : state :=
  state_of (run [Call_A_output (msg_of 97); Call_A_input (garbled_ack 0);
                 Call_A_output (msg_of 98)] initial_state).

(** ** The receiver of an earlier draft *)

(** One of the drafts kept beside sr.c (src/unnamed/part_000): [SEQSPACE]
    is twice the window, [IsCorrupted] is the comparison itself, and
    [B_input] acknowledges every packet that passes it. *)
Module Draft.

Definition SEQSPACE : Z := 2 * WINDOWSIZE.

Definition IsCorrupted (packet : pkt) : Z :=
  if checksum packet =? ComputeChecksum packet then 0 else 1.

Definition make_ackpkt (ack : Z) : pkt :=
  let ackpkt := Pkt NOTINUSE ack 0 (replicate PAYLOAD_LEN 0) in
  set_checksum (ComputeChecksum ackpkt) ackpkt.

Definition B_input (packet : pkt) (s : state) : state * list event :=
  if CInt.lnot (IsCorrupted packet) then
    let s1 := set_packets_received (packets_received s +i 1) s in
    if seqnum packet =? expectedseqnum s1 then
      (set_expectedseqnum ((expectedseqnum s1 +i 1) %i SEQSPACE) s1,
       [tolayer5 B (payload packet);
        tolayer3 B (make_ackpkt (expectedseqnum s1))])
    else
      (s1, [tolayer3 B (make_ackpkt (seqnum packet))])
  else (s, []).

End Draft.

(** ** Further notions used in the statements *)

(** The slot of sequence number [x] in a window that starts at [base], as
    [A_output] computes it for a packet and as [A_input] computes it for
    an acknowledgement. *)
Definition output_slot (base x : Z) : Z :=
  if base <=? x then x -i base else WINDOWSIZE -i base +i x.

Definition input_slot (base x : Z) : Z :=
  if base <=? x then x -i base else WINDOWSIZE -i (base -i x).

(** The number of slots at the front of a buffer that hold an
    acknowledgement. *)
Fixpoint ack_prefix (b : list pkt) : nat :=
  match b with
  | p :: b' => if acknum p =? NOTINUSE then O else S (ack_prefix b')
  | [] => O
  end.

(** The calls of the sender, with an acknowledgement number that is a
    sequence number. *)
Definition sender_call (i : input) : Prop :=
  match i with
  | Call_A_output _ | Call_A_timerinterrupt => True
  | Call_A_input p => is_seqnum (acknum p)
  | Call_B_input _ => False
  end.

(** A call that hands over a packet as it was built: its checksum field is
    the checksum of its other fields. *)
Definition clean_call (i : input) : Prop :=
  match i with
  | Call_A_input p | Call_B_input p => checksum p = ComputeChecksum p
  | _ => True
  end.

(** ** The sender of the draft *)

(** The draft (src/unnamed/part_000) takes acknowledgements as sr.c does,
    with its own [IsCorrupted] and its own [SEQSPACE]; in its slide the
    loop under the comment "Shift buffer left" is a second copy of the
    loop that clears the last slots. *)
Module DraftSender.

Definition window_last (first : Z) : Z :=
  (first +i WINDOWSIZE -i 1) %i Draft.SEQSPACE.

Definition try_slide (s : state) : option (state * list event) :=
  slide ← count_slide (iterations 0 WINDOWSIZE) 0 (buffer s) 0;
  if 0 <? slide then
    let s1 :=
      set_windowfirst ((windowfirst s +i slide) %i Draft.SEQSPACE) s in
    cleared ← clear_loop (iterations (WINDOWSIZE -i slide) WINDOWSIZE)
                         (WINDOWSIZE -i slide) (buffer s1);
    cleared' ← clear_loop (iterations (WINDOWSIZE -i slide) WINDOWSIZE)
                          (WINDOWSIZE -i slide) cleared;
    let s2 := set_buffer cleared' s1 in
    let timer := if 0 <? windowcount s2 then [starttimer A RTT] else [] in
    Some (s2, stoptimer A :: timer)
  else Some (s, []).

Definition A_input (packet : pkt) (s : state) : option (state * list event) :=
  let seqfirst := windowfirst s in
  let seqlast := window_last (windowfirst s) in
  if CInt.lnot (Draft.IsCorrupted packet) then
    let s1 := set_total_ACKs_received (total_ACKs_received s +i 1) s in
    if in_window seqfirst seqlast (acknum packet) then
      let index :=
        if seqfirst <=? acknum packet
        then acknum packet -i seqfirst
        else WINDOWSIZE -i (seqfirst -i acknum packet) in
      s2 ← mark_acked index packet s1;
      try_slide s2
    else Some (s1, [])
  else Some (s, []).

End DraftSender.

(** An acknowledgement as the receiver of the draft builds it. *)
Definition draft_ack (a : Z) : pkt := Draft.make_ackpkt a.

(** The sender of the draft with six packets 0 to 5 in its buffer, none of
    them acknowledged, and the same after the acknowledgement for 1. *)
Definition draft_full_state : state :=
  set_A_nextseqnum 6
    (set_windowcount 6
       (set_buffer
          (map (fun j => make_sendpkt j (msg_of (97 + j))) [0; 1; 2; 3; 4; 5])
          initial_state)).

Definition draft_acked1_state : state :=
  state_of (DraftSender.A_input (draft_ack 1) draft_full_state).

(** The variables of the receiver that the entry points keep in shape:
    the array has its six slots, each with a payload of 20 characters,
    the base is a sequence number, the expected sequence number is the
    initial 0, and [receivelast] is one of the slots 0 to 4. *)
Definition receiver_ok (s : state) : Prop :=
  length (buffer_b s) = Z.to_nat WINDOWSIZE /\
  is_seqnum (windowfirst s) /\ expectedseqnum s = 0 /\
  0 <= receivelast s <= 4 /\
  Forall (fun q => length (payload q) = PAYLOAD_LEN) (buffer_b s).

(** A call whose packet, if it is one for the receiver, has a payload of
    20 characters. *)
Definition sized_call (i : input) : Prop :=
  match i with
  | Call_B_input p => length (payload p) = PAYLOAD_LEN
  | _ => True
  end.

(** * Properties *)

(** ** Facts about C integers *)

Lemma wrap_in_range z : CInt.in_range (CInt.wrap z).
Proof.
  unfold CInt.in_range, CInt.wrap, CInt.INT_MIN, CInt.INT_MAX.
  pose proof (Z.mod_pos_bound (z + 2 ^ 31) (2 ^ 32)). lia.
Qed.

Lemma wrap_small z : CInt.in_range z -> CInt.wrap z = z.
Proof.
  unfold CInt.in_range, CInt.wrap, CInt.INT_MIN, CInt.INT_MAX. intros Hz.
  rewrite Z.mod_small; lia.
Qed.

Lemma wrap_wrap_add a b : CInt.wrap (CInt.wrap a + b) = CInt.wrap (a + b).
Proof.
  unfold CInt.wrap.
  replace ((a + 2 ^ 31) mod 2 ^ 32 - 2 ^ 31 + b + 2 ^ 31)
    with ((a + 2 ^ 31) mod 2 ^ 32 + b) by lia.
  rewrite Zplus_mod_idemp_l. f_equal. f_equal. lia.
Qed.

(** Two integers less than [2^32] apart have the same image under [wrap]
    only when they are equal. *)
Lemma wrap_inj_close a b :
  - 2 ^ 32 < a - b < 2 ^ 32 -> CInt.wrap a = CInt.wrap b -> a = b.
Proof.
  unfold CInt.wrap. intros Hd Heq.
  assert (Hm : (a + 2 ^ 31) mod 2 ^ 32 = (b + 2 ^ 31) mod 2 ^ 32) by lia.
  rewrite (Z.mod_eq (a + 2 ^ 31)), (Z.mod_eq (b + 2 ^ 31)) in Hm by lia.
  nia.
Qed.

Lemma add_1_eq_1 a : CInt.in_range a -> a +i 1 = 1 <-> a = 0.
Proof.
  intros Ha. unfold CInt.add. split.
  - intros H.
    assert (H1 : CInt.wrap 1 = 1) by reflexivity.
    rewrite <- H1 in H.
    apply wrap_inj_close in H; [lia |].
    unfold CInt.in_range, CInt.INT_MIN, CInt.INT_MAX in Ha. lia.
  - intros ->. reflexivity.
Qed.

Lemma add_small a b :
  CInt.in_range (a + b) -> a +i b = a + b.
Proof. apply wrap_small. Qed.

Lemma sub_small a b :
  CInt.in_range (a - b) -> a -i b = a - b.
Proof. apply wrap_small. Qed.

Lemma small_in_range z : -1000 <= z <= 1000 -> CInt.in_range z.
Proof. unfold CInt.in_range, CInt.INT_MIN, CInt.INT_MAX. lia. Qed.

(** ** Arrays *)

Lemma rd_defined {X : Type} (arr : list X) i :
  0 <= i < Z.of_nat (length arr) -> exists v, rd arr i = Some v.
Proof.
  intros Hi. unfold rd. rewrite bool_decide_eq_true_2 by lia.
  apply lookup_lt_is_Some. lia.
Qed.

Lemma wr_defined {X : Type} (arr : list X) i v :
  0 <= i < Z.of_nat (length arr) -> exists arr', wr arr i v = Some arr'.
Proof. intros Hi. unfold wr. rewrite bool_decide_eq_true_2 by lia. eauto. Qed.

Lemma wr_length {X : Type} (arr arr' : list X) i v :
  wr arr i v = Some arr' -> length arr' = length arr.
Proof.
  unfold wr. destruct (bool_decide _); [| discriminate].
  intros [= <-]. apply length_insert.
Qed.

Lemma rd_wr_other {X : Type} (arr arr' : list X) i j v :
  wr arr i v = Some arr' -> 0 <= j -> j <> i -> rd arr' j = rd arr j.
Proof.
  unfold wr, rd. intros H Hj Hne.
  destruct (bool_decide_reflect (0 <= i < Z.of_nat (length arr)));
    [| discriminate].
  injection H as <-.
  destruct (bool_decide (0 <= j)); [| reflexivity].
  apply list_lookup_insert_ne. lia.
Qed.

(** ** The checksum *)

Lemma fold_add_wrap l : forall a,
  fold_left CInt.add l (CInt.wrap a) = CInt.wrap (a + sumZ l).
Proof.
  induction l as [| x l IH]; intros a; simpl.
  - f_equal. lia.
  - unfold CInt.add at 2. rewrite wrap_wrap_add, IH. f_equal. lia.
Qed.

Lemma ComputeChecksum_sum p :
  ComputeChecksum p
  = CInt.wrap (seqnum p + acknum p + sumZ (take PAYLOAD_LEN (payload p))).
Proof. unfold ComputeChecksum, CInt.add at 2. apply fold_add_wrap. Qed.

(** [IsCorrupted] answers [-1] for a checksum that matches, [0] otherwise;
    [!IsCorrupted(packet)] is therefore true exactly for a mismatch. *)
Lemma IsCorrupted_match p :
  IsCorrupted p = -1 <-> checksum p = ComputeChecksum p.
Proof.
  unfold IsCorrupted.
  destruct (Z.eqb_spec (checksum p) (ComputeChecksum p)); split;
    intros; congruence || lia.
Qed.

Lemma lnot_IsCorrupted p :
  CInt.lnot (IsCorrupted p) = negb (checksum p =? ComputeChecksum p).
Proof.
  unfold CInt.lnot, IsCorrupted.
  destruct (checksum p =? ComputeChecksum p); reflexivity.
Qed.

(** Storing the checksum in a packet makes the packet pass the check: the
    checksum field is not among the summands. *)
Lemma set_checksum_matches p :
  checksum (set_checksum (ComputeChecksum p) p)
  = ComputeChecksum (set_checksum (ComputeChecksum p) p).
Proof. destruct p. reflexivity. Qed.

Lemma make_sendpkt_checksum seq m :
  checksum (make_sendpkt seq m) = ComputeChecksum (make_sendpkt seq m).
Proof. unfold make_sendpkt. apply set_checksum_matches. Qed.

Lemma make_ackpkt_checksum ack :
  checksum (make_ackpkt ack) = ComputeChecksum (make_ackpkt ack).
Proof. unfold make_ackpkt. apply set_checksum_matches. Qed.

Lemma sumZ_bounds l :
  Forall is_char l ->
  -128 * Z.of_nat (length l) <= sumZ l <= 255 * Z.of_nat (length l).
Proof.
  induction 1 as [| x l Hx _ IH]; simpl; [lia |].
  unfold is_char in Hx. lia.
Qed.

Lemma sumZ_insert (l : list Z) i old v :
  l !! i = Some old -> sumZ (<[i := v]> l) = sumZ l - old + v.
Proof.
  revert i. induction l as [| x l IH]; intros [| i] H; simpl in *;
    try discriminate.
  - injection H as ->. lia.
  - rewrite (IH i H). lia.
Qed.

Lemma take_payload p :
  length (payload p) = PAYLOAD_LEN -> take PAYLOAD_LEN (payload p) = payload p.
Proof. intros H. apply take_ge. lia. Qed.

(** A change of the sum by less than [2^32] in either direction, and not
    by zero, is seen by the comparison of the checksums. *)
Lemma checksum_detects p p' :
  checksum p = ComputeChecksum p ->
  checksum p' = checksum p ->
  (let total q := seqnum q + acknum q + sumZ (take PAYLOAD_LEN (payload q)) in
   total p' <> total p /\ - 2 ^ 32 < total p' - total p < 2 ^ 32) ->
  checksum p' <> ComputeChecksum p'.
Proof.
  intros Hv Hc [Hne Hclose] Heq.
  rewrite Hc, Hv, !ComputeChecksum_sum in Heq.
  apply wrap_inj_close in Heq; [congruence | lia].
Qed.

Lemma alter_seqnum_detected p v :
  pkt_wf p -> checksum p = ComputeChecksum p ->
  CInt.in_range v -> v <> seqnum p ->
  checksum (set_seqnum v p) <> ComputeChecksum (set_seqnum v p).
Proof.
  intros (Hs & _) Hv Hr Hne. apply (checksum_detects p); [done | done |].
  unfold CInt.in_range, CInt.INT_MIN, CInt.INT_MAX in *. simpl. lia.
Qed.

Lemma alter_acknum_detected p v :
  pkt_wf p -> checksum p = ComputeChecksum p ->
  CInt.in_range v -> v <> acknum p ->
  checksum (set_acknum v p) <> ComputeChecksum (set_acknum v p).
Proof.
  intros (_ & Ha & _) Hv Hr Hne. apply (checksum_detects p); [done | done |].
  unfold CInt.in_range, CInt.INT_MIN, CInt.INT_MAX in *. simpl. lia.
Qed.

Lemma alter_payload_detected p i old v :
  pkt_wf p -> checksum p = ComputeChecksum p ->
  payload p !! i = Some old -> is_char v -> v <> old ->
  checksum (set_payload (<[i := v]> (payload p)) p)
  <> ComputeChecksum (set_payload (<[i := v]> (payload p)) p).
Proof.
  intros (_ & _ & _ & Hlen & Hch) Hv Hi Hc Hne.
  apply (checksum_detects p); [done | done |].
  assert (Hold : is_char old).
  { rewrite Forall_lookup in Hch. exact (Hch i old Hi). }
  simpl. rewrite (take_ge (<[i := v]> (payload p))), (take_ge (payload p)),
    (sumZ_insert _ _ _ _ Hi); rewrite ?length_insert; try lia.
  unfold is_char in *. lia.
Qed.

(** The packet handed to layer 3 by [A_output], and the one handed to
    layer 3 by [B_input], are [make_sendpkt] and [make_ackpkt]. *)
Lemma A_output_sent m s s' out :
  A_output m s = Some (s', out) ->
  sent_by A out = [] \/ sent_by A out = [make_sendpkt (A_nextseqnum s) m].
Proof.
  unfold A_output. intros H.
  destruct (in_window _ _ _).
  - destruct (wr _ _ _) as [b |]; simpl in H; [| discriminate].
    injection H as _ <-. right.
    destruct (_ =? 1); reflexivity.
  - injection H as _ <-. left. reflexivity.
Qed.

Lemma B_input_sent p s s' out :
  B_input p s = Some (s', out) ->
  sent_by B out = [] \/ sent_by B out = [make_ackpkt (expectedseqnum s)].
Proof.
  unfold B_input. intros H.
  destruct (_ && _); [| injection H as _ <-; by left].
  right. simpl in H.
  destruct (in_window _ _ _); [| injection H as _ <-; reflexivity].
  destruct (rd _ _) as [slot |]; simpl in H; [| discriminate].
  destruct (strcmp_ne _ _) as [[|] |]; simpl in H; try discriminate.
  - destruct (wr _ _ _) as [b |]; simpl in H; [| discriminate].
    destruct (if _ =? _ then _ else _) as [s4 |]; simpl in H; [| discriminate].
    injection H as _ <-. reflexivity.
  - injection H as _ <-. reflexivity.
Qed.

(** ** The checksum, as a whole *)

Lemma matching_both p :
  checksum p = ComputeChecksum p ->
  checksum p = ComputeChecksum p /\ IsCorrupted p = -1.
Proof. intros H. split; [exact H | by apply IsCorrupted_match]. Qed.

Lemma mismatching_both p :
  checksum p <> ComputeChecksum p ->
  checksum p <> ComputeChecksum p /\ IsCorrupted p = 0.
Proof.
  intros H. split; [exact H |]. unfold IsCorrupted.
  destruct (Z.eqb_spec (checksum p) (ComputeChecksum p)); done.
Qed.


(** C9: [ComputeChecksum] is the sum of [seqnum], [acknum] and the 20
    payload characters, in [int] arithmetic; the packets that [A_output]
    and [B_input] hand to layer 3 carry the checksum [ComputeChecksum]
    gives for them; and a packet that carries its checksum no longer does
    once its [seqnum], its [acknum] or one payload character has been
    replaced by a different value. *)
Theorem C9_checksum :
  (forall p,
     length (payload p) = PAYLOAD_LEN ->
     ComputeChecksum p = CInt.wrap (seqnum p + acknum p + sumZ (payload p)) /\
     (CInt.in_range (seqnum p + acknum p + sumZ (payload p)) ->
      ComputeChecksum p = seqnum p + acknum p + sumZ (payload p))) /\
  (forall m s s' out p,
     A_output m s = Some (s', out) -> p ∈ sent_by A out ->
     checksum p = ComputeChecksum p /\ IsCorrupted p = -1) /\
  (forall q s s' out p,
     B_input q s = Some (s', out) -> p ∈ sent_by B out ->
     checksum p = ComputeChecksum p /\ IsCorrupted p = -1) /\
  (forall p v,
     pkt_wf p -> checksum p = ComputeChecksum p ->
     CInt.in_range v -> v <> seqnum p ->
     checksum (set_seqnum v p) <> ComputeChecksum (set_seqnum v p) /\
     IsCorrupted (set_seqnum v p) = 0) /\
  (forall p v,
     pkt_wf p -> checksum p = ComputeChecksum p ->
     CInt.in_range v -> v <> acknum p ->
     checksum (set_acknum v p) <> ComputeChecksum (set_acknum v p) /\
     IsCorrupted (set_acknum v p) = 0) /\
  (forall p i old v,
     pkt_wf p -> checksum p = ComputeChecksum p ->
     payload p !! i = Some old -> is_char v -> v <> old ->
     let p' := set_payload (<[i := v]> (payload p)) p in
     checksum p' <> ComputeChecksum p' /\ IsCorrupted p' = 0).
Proof.
  split; [| split; [| split; [| split; [| split]]]].
  - intros p Hlen. rewrite ComputeChecksum_sum, take_payload by done.
    split; [reflexivity | apply wrap_small].
  - intros m s s' out p H Hin. apply matching_both.
    destruct (A_output_sent _ _ _ _ H) as [E | E]; rewrite E in Hin.
    + by apply elem_of_nil in Hin.
    + apply list_elem_of_singleton in Hin as ->. apply make_sendpkt_checksum.
  - intros q s s' out p H Hin. apply matching_both.
    destruct (B_input_sent _ _ _ _ H) as [E | E]; rewrite E in Hin.
    + by apply elem_of_nil in Hin.
    + apply list_elem_of_singleton in Hin as ->. apply make_ackpkt_checksum.
  - intros. by apply mismatching_both, alter_seqnum_detected.
  - intros. by apply mismatching_both, alter_acknum_detected.
  - intros. by eapply mismatching_both, alter_payload_detected.
Qed.

Lemma C9_witness :
  pkt_wf data_pkt0 /\
  ComputeChecksum data_pkt0 = 1939 /\
  data_pkt0 ∈ sent_by A [tolayer3 A data_pkt0; starttimer A RTT] /\
  checksum data_pkt0 = ComputeChecksum data_pkt0 /\
  checksum (set_seqnum 1 data_pkt0) <> ComputeChecksum (set_seqnum 1 data_pkt0) /\
  checksum (set_acknum 0 data_pkt0) <> ComputeChecksum (set_acknum 0 data_pkt0) /\
  checksum garbled_pkt0 <> ComputeChecksum garbled_pkt0.
Proof.
  destruct C9_checksum as (Hsum & HA & _ & Hseq & Hack & Hpay).
  assert (Hwf : pkt_wf data_pkt0)
    by (apply (bool_decide_unpack _); vm_compute; reflexivity).
  assert (Hrun : A_output (msg_of 97) initial_state
                 = Some (one_sent_state,
                         [tolayer3 A data_pkt0; starttimer A RTT]))
    by (vm_compute; reflexivity).
  assert (Hin : data_pkt0 ∈ sent_by A [tolayer3 A data_pkt0; starttimer A RTT])
    by (simpl; apply list_elem_of_singleton; reflexivity).
  assert (Hok : checksum data_pkt0 = ComputeChecksum data_pkt0)
    by exact (proj1 (HA _ _ _ _ _ Hrun Hin)).
  split; [exact Hwf |]. split.
  { destruct (Hsum data_pkt0) as [_ Hexact]; [reflexivity |].
    rewrite Hexact.
    - vm_compute. reflexivity.
    - vm_compute. split; discriminate. }
  split; [exact Hin |]. split; [exact Hok |]. split; [| split].
  - apply Hseq; [exact Hwf | exact Hok | | ].
    + vm_compute. split; discriminate.
    + vm_compute. discriminate.
  - apply Hack; [exact Hwf | exact Hok | | ].
    + vm_compute. split; discriminate.
    + vm_compute. discriminate.
  - apply (Hpay data_pkt0 0%nat 97 122); [exact Hwf | exact Hok | | | ].
    + vm_compute. reflexivity.
    + vm_compute. split; discriminate.
    + discriminate.
Defined.

(** ** The window test *)

(** Case analysis on a sequence number. *)
Ltac seqnum_cases H :=
  let E := fresh in
  match type of H with
  | is_seqnum ?x =>
      assert (E : x = 0 \/ x = 1 \/ x = 2 \/ x = 3 \/ x = 4 \/ x = 5 \/ x = 6)
        by (unfold is_seqnum, SEQSPACE in H; lia);
      clear H;
      destruct E as [E | [E | [E | [E | [E | [E | E]]]]]]; subst x
  end.

(** On sequence numbers, the two-case test of sr.c is membership in the
    cyclic window. *)
Lemma in_window_cyclic base x :
  is_seqnum base -> is_seqnum x ->
  in_window base (window_last base) x = in_cyclic_window_spec base x.
Proof.
  intros Hb Hx. seqnum_cases Hb; seqnum_cases Hx; vm_compute; reflexivity.
Qed.

(** ** Definedness of the sender *)

(** The count of [count_slide] lies between its start value and the start
    value plus the number of iterations. *)
Lemma count_slide_defined fuel : forall i buf acc,
  0 <= i -> i + Z.of_nat fuel <= Z.of_nat (length buf) ->
  0 <= acc -> acc + Z.of_nat fuel <= 1000 ->
  exists k, count_slide fuel i buf acc = Some k /\
            acc <= k <= acc + Z.of_nat fuel.
Proof.
  induction fuel as [| fuel IH]; intros i buf acc Hi Hlen Hacc Hsmall; simpl.
  - exists acc. split; [reflexivity | lia].
  - destruct (rd_defined buf i) as [p Hp]; [lia |]. rewrite Hp. simpl.
    destruct (acknum p =? NOTINUSE).
    + exists acc. split; [reflexivity | lia].
    + rewrite add_small by (apply small_in_range; lia).
      destruct (IH (i + 1) buf (acc + 1)) as (k & Hk & Hb); try lia.
      exists k. split; [exact Hk | lia].
Qed.

Lemma shift_loop_defined fuel : forall i slide buf,
  0 <= i -> 0 <= slide ->
  i + Z.of_nat fuel + slide <= Z.of_nat (length buf) ->
  Z.of_nat (length buf) <= 1000 ->
  exists buf', shift_loop fuel i slide buf = Some buf' /\
               length buf' = length buf.
Proof.
  induction fuel as [| fuel IH]; intros i slide buf Hi Hs Hlen Hsmall; simpl.
  - eauto.
  - rewrite add_small by (apply small_in_range; lia).
    destruct (rd_defined buf (i + slide)) as [p Hp]; [lia |].
    rewrite Hp. simpl.
    destruct (wr_defined buf i p) as [buf1 Hw]; [lia |]. rewrite Hw. simpl.
    pose proof (wr_length _ _ _ _ Hw) as Hl.
    destruct (IH (i + 1) slide buf1) as (buf' & H' & Hl'); try lia.
    exists buf'. split; [exact H' | congruence].
Qed.

Lemma clear_loop_defined fuel : forall i buf,
  0 <= i -> i + Z.of_nat fuel <= Z.of_nat (length buf) ->
  exists buf', clear_loop fuel i buf = Some buf' /\
               length buf' = length buf.
Proof.
  induction fuel as [| fuel IH]; intros i buf Hi Hlen; simpl.
  - eauto.
  - destruct (rd_defined buf i) as [p Hp]; [lia |]. rewrite Hp. simpl.
    destruct (wr_defined buf i (clear_slot p)) as [buf1 Hw]; [lia |].
    rewrite Hw. simpl.
    pose proof (wr_length _ _ _ _ Hw) as Hl.
    destruct (IH (i + 1) buf1) as (buf' & H' & Hl'); try lia.
    exists buf'. split; [exact H' | congruence].
Qed.

Lemma rem_seqspace z : 0 <= z -> is_seqnum (z %i SEQSPACE).
Proof.
  intros Hz. unfold is_seqnum, CInt.rem.
  pose proof (Z.rem_bound_pos z SEQSPACE Hz). unfold SEQSPACE in *. lia.
Qed.

Lemma try_slide_defined s :
  sender_ok s ->
  exists s' out, try_slide s = Some (s', out) /\ sender_ok s'.
Proof.
  intros Hok. pose proof Hok as (Hlen & Hw & Hn). unfold try_slide.
  change (iterations 0 WINDOWSIZE) with 6%nat.
  destruct (count_slide_defined 6 0 (buffer s) 0) as (k & Hk & Hb);
    try (rewrite ?Hlen; unfold WINDOWSIZE; lia).
  rewrite Hk. simpl.
  destruct (Z.ltb_spec 0 k); [| by eexists _, _].
  unfold iterations. unfold WINDOWSIZE in *.
  rewrite (sub_small 6 k) by (apply small_in_range; lia).
  destruct (shift_loop_defined (Z.to_nat (6 - k - 0)) 0 k (buffer s))
    as (b1 & H1 & L1); try (rewrite ?Hlen; lia).
  simpl. rewrite H1. simpl.
  destruct (clear_loop_defined (Z.to_nat (6 - (6 - k))) (6 - k) b1)
    as (b2 & H2 & L2); try (rewrite ?L1, ?Hlen; lia).
  rewrite H2. simpl. eexists _, _. split; [reflexivity |].
  unfold sender_ok. simpl. split; [rewrite L2, L1; exact Hlen |].
  split; [| exact Hn].
  unfold is_seqnum, SEQSPACE in Hw.
  rewrite add_small by (apply small_in_range; lia).
  apply rem_seqspace. lia.
Qed.

(** Inside the window the slot computed by [A_output], and the one
    computed by [A_input], are indices of the array. *)
Lemma output_index_in_bounds base x :
  is_seqnum base -> is_seqnum x ->
  in_window base (window_last base) x = true ->
  0 <= (if base <=? x then x -i base else WINDOWSIZE -i base +i x)
    < WINDOWSIZE.
Proof.
  intros Hb Hx. seqnum_cases Hb; seqnum_cases Hx;
    vm_compute; intros H;
    (discriminate H || (split; (discriminate || reflexivity))).
Qed.

Lemma input_index_in_bounds base x :
  is_seqnum base -> is_seqnum x ->
  in_window base (window_last base) x = true ->
  0 <= (if base <=? x then x -i base else WINDOWSIZE -i (base -i x))
    < WINDOWSIZE.
Proof.
  intros Hb Hx. seqnum_cases Hb; seqnum_cases Hx;
    vm_compute; intros H;
    (discriminate H || (split; (discriminate || reflexivity))).
Qed.

(** [A_output] is defined on every state in shape, and keeps the shape. *)
Lemma A_output_defined m s :
  sender_ok s ->
  exists s' out, A_output m s = Some (s', out) /\ sender_ok s'.
Proof.
  intros Hok. pose proof Hok as (Hlen & Hw & Hn). unfold A_output.
  destruct (in_window _ _ _) eqn:Hin; [| by eexists _, _].
  pose proof (output_index_in_bounds _ _ Hw Hn Hin) as Hidx.
  set (index := if windowfirst s <=? A_nextseqnum s then _ else _) in *.
  destruct (wr_defined (buffer s) index (make_sendpkt (A_nextseqnum s) m))
    as [b Hb]; [rewrite Hlen; exact Hidx |].
  rewrite Hb. simpl. eexists _, _. split; [reflexivity |].
  unfold sender_ok. simpl.
  split; [rewrite (wr_length _ _ _ _ Hb); exact Hlen |].
  split; [exact Hw |].
  unfold is_seqnum, SEQSPACE in Hn.
  rewrite add_small by (apply small_in_range; lia).
  apply rem_seqspace. lia.
Qed.

(** [A_input] is defined on every state in shape for a packet whose
    acknowledgement number is a sequence number, and keeps the shape. *)
Lemma A_input_defined p s :
  sender_ok s -> is_seqnum (acknum p) ->
  exists s' out, A_input p s = Some (s', out) /\ sender_ok s'.
Proof.
  intros Hok Ha. pose proof Hok as (Hlen & Hw & Hn). unfold A_input.
  destruct (CInt.lnot _); [| by eexists _, _].
  destruct (in_window _ _ _) eqn:Hin; [| by eexists _, _].
  pose proof (input_index_in_bounds _ _ Hw Ha Hin) as Hidx.
  set (index := if windowfirst s <=? acknum p then _ else _) in *.
  unfold mark_acked. simpl.
  destruct (rd_defined (buffer s) index) as [slot Hslot];
    [rewrite Hlen; exact Hidx |].
  rewrite Hslot. simpl.
  destruct (acknum slot =? NOTINUSE).
  - destruct (wr_defined (buffer s) index (set_acknum (acknum p) slot))
      as [b Hb]; [rewrite Hlen; exact Hidx |].
    rewrite Hb. simpl. apply try_slide_defined.
    unfold sender_ok. simpl.
    split; [rewrite (wr_length _ _ _ _ Hb); exact Hlen | by split].
  - simpl. apply try_slide_defined. exact Hok.
Qed.

Lemma A_timerinterrupt_defined s :
  sender_ok s ->
  exists s' out, A_timerinterrupt s = Some (s', out) /\ sender_ok s'.
Proof.
  intros Hok. pose proof Hok as (Hlen & Hw & Hn). unfold A_timerinterrupt.
  destruct (0 <? windowcount s); [| by eexists _, _].
  destruct (rd_defined (buffer s) 0) as [b Hb];
    [rewrite Hlen; unfold WINDOWSIZE; lia |].
  rewrite Hb. simpl. by eexists _, _.
Qed.

Lemma initial_sender_ok : sender_ok initial_state.
Proof. unfold sender_ok, is_seqnum, SEQSPACE. simpl. repeat split; lia. Qed.

(** ** The sender's timer and window *)

Lemma try_slide_events s s' out :
  try_slide s = Some (s', out) ->
  (out = [] /\ s' = s) \/
  (out = [stoptimer A] /\ windowcount s' <= 0) \/
  (out = [stoptimer A; starttimer A RTT] /\ 0 < windowcount s').
Proof.
  unfold try_slide. intros H.
  destruct (count_slide _ _ _ _) as [slide |]; simpl in H; [| discriminate].
  destruct (0 <? slide).
  - destruct (shift_loop _ _ _ _) as [shifted |]; simpl in H; [| discriminate].
    destruct (clear_loop _ _ _) as [cleared |]; simpl in H; [| discriminate].
    injection H as <- <-. simpl. right.
    destruct (Z.ltb_spec 0 (windowcount s)); [right | left]; split;
      reflexivity || lia.
  - injection H as <- <-. left. split; reflexivity.
Qed.

Lemma mark_acked_windowfirst index p s s' :
  mark_acked index p s = Some s' -> windowfirst s' = windowfirst s.
Proof.
  unfold mark_acked. intros H.
  destruct (rd _ _) as [slot |]; simpl in H; [| discriminate].
  destruct (_ =? _).
  - destruct (wr _ _ _) as [b |]; simpl in H; [| discriminate].
    injection H as <-. reflexivity.
  - injection H as <-. reflexivity.
Qed.

Lemma A_input_events p s s' out :
  A_input p s = Some (s', out) ->
  (out = [] /\ windowfirst s' = windowfirst s) \/
  (out = [stoptimer A] /\ windowcount s' <= 0) \/
  (out = [stoptimer A; starttimer A RTT] /\ 0 < windowcount s').
Proof.
  unfold A_input. intros H.
  destruct (CInt.lnot _); [| injection H as <- <-; left; done].
  destruct (in_window _ _ _); [| injection H as <- <-; left; done].
  destruct (mark_acked _ _ _) as [s2 |] eqn:Hm; simpl in H; [| discriminate].
  apply mark_acked_windowfirst in Hm. simpl in Hm.
  destruct (try_slide_events _ _ _ H) as [[-> ->] | Hr]; [left | right]; done.
Qed.

Lemma A_output_events m s s' out :
  A_output m s = Some (s', out) ->
  let accepted :=
    in_window (windowfirst s) (window_last (windowfirst s)) (A_nextseqnum s) in
  timer_events out
  = (if accepted && (windowcount s' =? 1) then [starttimer A RTT] else [])
  /\ (if accepted then windowcount s' = windowcount s +i 1
      else windowcount s' = windowcount s).
Proof.
  unfold A_output. intros H. simpl.
  destruct (in_window _ _ _); simpl.
  - destruct (wr _ _ _) as [b |]; simpl in H; [| discriminate].
    injection H as <- <-. simpl.
    destruct (_ =? 1); split; reflexivity.
  - injection H as <- <-. split; reflexivity.
Qed.

(** C7: [A_output] starts the timer exactly when it accepts a message and
    the count of outstanding packets thereby becomes 1, that is, when the
    count was 0 before; and whenever [A_input] moves the base of the
    window, it stops the timer and then starts it again if and only if
    the count of outstanding packets is still positive.  Both functions
    return on every sender state in shape, [A_input] for every packet
    whose acknowledgement number is a sequence number. *)
Theorem C7_timer_discipline :
  (forall m s s' out,
     CInt.in_range (windowcount s) ->
     A_output m s = Some (s', out) ->
     let accepted :=
       in_window (windowfirst s) (window_last (windowfirst s))
                 (A_nextseqnum s) in
     timer_events out
     = (if accepted && (windowcount s' =? 1) then [starttimer A RTT] else [])
     /\ (accepted = true -> (windowcount s' = 1 <-> windowcount s = 0))) /\
  (forall p s s' out,
     A_input p s = Some (s', out) ->
     (out = [] /\ windowfirst s' = windowfirst s) \/
     (out = [stoptimer A] /\ windowcount s' <= 0) \/
     (out = [stoptimer A; starttimer A RTT] /\ 0 < windowcount s')) /\
  (forall m s, sender_ok s -> exists s' out, A_output m s = Some (s', out)) /\
  (forall p s,
     sender_ok s -> is_seqnum (acknum p) ->
     exists s' out, A_input p s = Some (s', out)).
Proof.
  split; [| split; [| split]].
  - intros m s s' out Hr H. destruct (A_output_events _ _ _ _ H) as [Ht Hc].
    simpl. split; [exact Ht |].
    intros Hacc. rewrite Hacc in Hc. rewrite Hc. by apply add_1_eq_1.
  - exact A_input_events.
  - intros m s Hok.
    destruct (A_output_defined m s Hok) as (s' & out & H & _). eauto.
  - intros p s Hok Ha.
    destruct (A_input_defined p s Hok Ha) as (s' & out & H & _). eauto.
Qed.

Lemma C7_witness :
  CInt.in_range (windowcount initial_state) /\
  sender_ok one_sent_state /\ is_seqnum (acknum (garbled_ack 0)) /\
  (exists s' out,
     A_output (msg_of 97) initial_state = Some (s', out) /\
     timer_events out = [starttimer A RTT] /\
     (windowcount s' = 1 <-> windowcount initial_state = 0)) /\
  (exists s' out,
     A_input (garbled_ack 0) one_sent_state = Some (s', out) /\
     out = [stoptimer A] /\ windowcount s' <= 0).
Proof.
  destruct C7_timer_discipline as (Hout & Hin & _ & Hdef).
  assert (Hr : CInt.in_range (windowcount initial_state))
    by (vm_compute; split; discriminate).
  assert (Hok : sender_ok one_sent_state)
    by (vm_compute; repeat split; discriminate || reflexivity).
  assert (Ha : is_seqnum (acknum (garbled_ack 0)))
    by (vm_compute; split; discriminate || reflexivity).
  assert (H : A_output (msg_of 97) initial_state
              = Some (one_sent_state, [tolayer3 A data_pkt0; starttimer A RTT]))
    by (vm_compute; reflexivity).
  split; [exact Hr |]. split; [exact Hok |]. split; [exact Ha |]. split.
  - destruct (Hout _ _ _ _ Hr H) as [Ht Hc].
    eexists _, _. split; [exact H |]. split.
    + rewrite Ht. vm_compute. reflexivity.
    + apply Hc. vm_compute. reflexivity.
  - destruct (Hdef (garbled_ack 0) one_sent_state Hok Ha) as (s' & out & H').
    exists s', out. split; [exact H' |].
    destruct (Hin _ _ _ _ H') as [[E _] | [[E Hc] | [E _]]].
    + vm_compute in H'. rewrite E in H'. discriminate H'.
    + split; [exact E | exact Hc].
    + vm_compute in H'. rewrite E in H'. discriminate H'.
Defined.

(** ** A full window *)

Lemma six_sends_fill_window :
  let r := run six_sends initial_state in
  let s := state_of r in
  r <> None /\
  state_wf s /\ windowfirst s = 0 /\ A_nextseqnum s = 6 /\
  windowcount s = 6 /\ map seqnum (buffer s) = [0; 1; 2; 3; 4; 5] /\
  in_window (windowfirst s) (window_last (windowfirst s)) (A_nextseqnum s)
  = false.
Proof. vm_compute. repeat split; (reflexivity || discriminate). Qed.

(** C6: when [A_nextseqnum] fails the window test, [A_output] adds one to
    [window_full], makes no call into the emulator, and leaves every other
    variable as it was. *)
Theorem C6_window_full_rejects m s :
  in_window (windowfirst s) (window_last (windowfirst s)) (A_nextseqnum s)
  = false ->
  exists s',
    A_output m s = Some (s', []) /\
    s' = set_window_full (window_full s +i 1) s /\
    window_full s' = window_full s +i 1 /\
    buffer s' = buffer s /\ windowfirst s' = windowfirst s /\
    windowlast s' = windowlast s /\ windowcount s' = windowcount s /\
    A_nextseqnum s' = A_nextseqnum s /\
    total_ACKs_received s' = total_ACKs_received s /\
    new_ACKs s' = new_ACKs s /\ packets_resent s' = packets_resent s /\
    packets_received s' = packets_received s /\
    expectedseqnum s' = expectedseqnum s /\ B_nextseqnum s' = B_nextseqnum s /\
    buffer_b s' = buffer_b s /\ receivelast s' = receivelast s.
Proof.
  intros Hout. eexists. unfold A_output. rewrite Hout.
  repeat split; reflexivity.
Qed.

Lemma C6_witness :
  let s := state_of (run six_sends initial_state) in
  in_window (windowfirst s) (window_last (windowfirst s)) (A_nextseqnum s)
  = false /\
  exists s', A_output (msg_of 103) s = Some (s', []) /\
             window_full s' = 1 /\ buffer s' = buffer s.
Proof.
  intros s. split; [vm_compute; reflexivity |].
  destruct (C6_window_full_rejects (msg_of 103) s) as (s' & H & Hs & Hw & Hb & _).
  - vm_compute; reflexivity.
  - exists s'. split; [exact H |]. split; [rewrite Hw; vm_compute; reflexivity | exact Hb].
Defined.

(** The same for a sender whose variables are sequence numbers, with the
    window as the specification words it. *)
Lemma A_output_outside_cyclic_window m s :
  is_seqnum (windowfirst s) -> is_seqnum (A_nextseqnum s) ->
  in_cyclic_window_spec (windowfirst s) (A_nextseqnum s) = false ->
  A_output m s = Some (set_window_full (window_full s +i 1) s, []).
Proof.
  intros Hb Hx Hs. rewrite <- in_window_cyclic in Hs by done.
  unfold A_output. rewrite Hs. reflexivity.
Qed.

(** ** The timer interrupt *)

(** C10: with no packet outstanding, [A_timerinterrupt] makes no call and
    changes nothing. *)
Theorem C10_timeout_on_empty_window s :
  windowcount s = 0 -> A_timerinterrupt s = Some (s, []).
Proof. intros H. unfold A_timerinterrupt. rewrite H. reflexivity. Qed.

Lemma C10_witness :
  windowcount initial_state = 0 /\
  A_timerinterrupt initial_state = Some (initial_state, []).
Proof.
  split; [reflexivity |].
  apply (C10_timeout_on_empty_window initial_state). reflexivity.
Defined.





(** Slot 0 does not always hold the oldest packet that is not
    acknowledged.  After a first message, its acknowledgement and a second
    message, the base is 6, the one outstanding packet, with sequence
    number 1, is in slot 1, and slot 0 is a cleared slot: the interrupt
    sends that slot, with its empty payload, and not the packet. *)
Lemma timeout_resends_cleared_slot :
  let s := second_sent_state in
  windowfirst s = 6 /\ windowcount s = 1 /\
  buffer s !! 1%nat = Some (make_sendpkt 1 (msg_of 98)) /\
  buffer s !! 0%nat = Some (clear_slot (set_acknum 0 data_pkt0)) /\
  ~ base_slot_holds_oldest s (clear_slot (set_acknum 0 data_pkt0)) /\
  snd <$> A_timerinterrupt s
  = Some [tolayer3 A (clear_slot (set_acknum 0 data_pkt0));
          starttimer A RTT].
Proof.
  vm_compute. repeat split; try reflexivity.
  intros (_ & _ & H). discriminate H.
Qed.

(** ** Where sr.c departs from the protocol *)

(** *** The sense of [IsCorrupted] at its callers *)

(** A packet whose checksum matches is dropped by both sides, whatever the
    state: nothing is sent, delivered or changed. *)
Lemma A_input_drops_matching p s :
  checksum p = ComputeChecksum p -> A_input p s = Some (s, []).
Proof.
  intros H. unfold A_input. rewrite lnot_IsCorrupted, H, Z.eqb_refl.
  reflexivity.
Qed.

Lemma B_input_drops_matching p s :
  checksum p = ComputeChecksum p -> B_input p s = Some (s, []).
Proof.
  intros H. unfold B_input. rewrite lnot_IsCorrupted, H, Z.eqb_refl.
  reflexivity.
Qed.

(** A packet whose checksum does not match is counted by [A_input] as an
    acknowledgement received. *)
Lemma A_input_counts_mismatching p s s' out :
  checksum p <> ComputeChecksum p ->
  A_input p s = Some (s', out) ->
  total_ACKs_received s' = total_ACKs_received s +i 1.
Proof.
  intros Hne. unfold A_input. rewrite lnot_IsCorrupted.
  destruct (Z.eqb_spec (checksum p) (ComputeChecksum p)); [done |]. simpl.
  destruct (in_window _ _ _); [| intros [= <- _]; reflexivity].
  destruct (mark_acked _ _ _) as [s2 |] eqn:Hm; simpl; [| discriminate].
  intros Hs.
  assert (Hs2 : total_ACKs_received s2 = total_ACKs_received s +i 1).
  { unfold mark_acked in Hm.
    destruct (rd _ _) as [slot |]; simpl in Hm; [| discriminate].
    destruct (_ =? _).
    - destruct (wr _ _ _) as [b |]; simpl in Hm; [| discriminate].
      injection Hm as <-. reflexivity.
    - injection Hm as <-. reflexivity. }
  rewrite <- Hs2. unfold try_slide in Hs.
  destruct (count_slide _ _ _ _) as [slide |]; simpl in Hs; [| discriminate].
  destruct (0 <? slide).
  - destruct (shift_loop _ _ _ _) as [x |]; simpl in Hs; [| discriminate].
    destruct (clear_loop _ _ _) as [y |]; simpl in Hs; [| discriminate].
    injection Hs as <- _. reflexivity.
  - injection Hs as <- _. reflexivity.
Qed.

(** C2 at a concrete input.  The acknowledgement of packet 0, with a
    payload character overwritten on the way, reaches the sender that has
    sent packet 0: the sender counts it, marks packet 0 acknowledged, moves
    its window and stops its timer.  The data packet 0, garbled in the same
    way, reaches the fresh receiver: the receiver counts it, delivers its
    payload and acknowledges it. *)
Theorem C2_garbled_packets_are_processed :
  checksum (garbled_ack 0) <> ComputeChecksum (garbled_ack 0) /\
  (let r := A_input (garbled_ack 0) one_sent_state in
   r <> None /\ state_of r <> one_sent_state /\
   total_ACKs_received (state_of r) = 1 /\ new_ACKs (state_of r) = 1 /\
   windowcount one_sent_state = 1 /\ windowcount (state_of r) = 0 /\
   windowfirst one_sent_state = 0 /\ windowfirst (state_of r) = 6 /\
   snd <$> r = Some [stoptimer A]) /\
  checksum garbled_pkt0 <> ComputeChecksum garbled_pkt0 /\
  (let r := B_input garbled_pkt0 initial_state in
   r <> None /\ state_of r <> initial_state /\
   packets_received (state_of r) = 1 /\
   snd <$> r = Some [tolayer5 B (payload garbled_pkt0);
                     tolayer3 B (make_ackpkt 0);
                     tolayer5 B (payload garbled_pkt0)]).
Proof.
  vm_compute. repeat split; try discriminate; try reflexivity.
Qed.

(** *** Delivery *)

(** C1 at a concrete input.  One call of [B_input] on the fresh receiver,
    with a packet that it accepts, hands the payload of that packet to
    layer 5 twice. *)
Theorem C1_one_call_delivers_twice :
  delivered <$> (snd <$> B_input garbled_pkt0 initial_state)
  = Some [payload garbled_pkt0; payload garbled_pkt0].
Proof. vm_compute. reflexivity. Qed.

(** In general a call of [B_input] delivers the payload of its packet
    not at all, once, or twice. *)
Lemma B_input_delivers p s s' out :
  B_input p s = Some (s', out) ->
  delivered out = [] \/ delivered out = [payload p] \/
  delivered out = [payload p; payload p].
Proof.
  unfold B_input. intros H.
  destruct (_ && _); [| injection H as _ <-; by left].
  right. simpl in H.
  destruct (in_window _ _ _); [| injection H as _ <-; by left].
  destruct (rd _ _) as [slot |]; simpl in H; [| discriminate].
  destruct (strcmp_ne _ _) as [[|] |]; simpl in H; try discriminate.
  - destruct (wr _ _ _) as [b |]; simpl in H; [| discriminate].
    destruct (if _ =? _ then _ else _) as [s4 |]; simpl in H; [| discriminate].
    injection H as _ <-. by right.
  - injection H as _ <-. by left.
Qed.

(** The packet as the sender made it is not delivered at all. *)
Lemma sent_packet_not_delivered :
  sent_by A (snd (default (initial_state, [])
                          (A_output (msg_of 97) initial_state)))
  = [data_pkt0] /\
  B_input data_pkt0 initial_state = Some (initial_state, []).
Proof. split; vm_compute; reflexivity. Qed.

(** *** Acknowledgements *)

(** C3 at concrete inputs.  The checksum-correct packet 0 is answered by
    no acknowledgement; nor is a packet that [B_input] would accept but
    whose sequence number is not [expectedseqnum]. *)
Theorem C3_no_acknowledgement :
  checksum data_pkt0 = ComputeChecksum data_pkt0 /\
  B_input data_pkt0 initial_state = Some (initial_state, []) /\
  checksum garbled_pkt1 <> ComputeChecksum garbled_pkt1 /\
  seqnum garbled_pkt1 = 1 /\
  B_input garbled_pkt1 initial_state = Some (initial_state, []).
Proof. vm_compute. repeat split; try discriminate; try reflexivity. Qed.

(** The draft's receiver answers every packet whose checksum matches with
    one acknowledgement, carrying the sequence number of that packet, and
    delivers at most once per call. *)
Lemma Draft_B_input_acknowledges p s :
  checksum p = ComputeChecksum p ->
  sent_by B (snd (Draft.B_input p s)) = [Draft.make_ackpkt (seqnum p)] /\
  (length (delivered (snd (Draft.B_input p s))) <= 1)%nat.
Proof.
  intros H. unfold Draft.B_input, Draft.IsCorrupted, CInt.lnot.
  rewrite H, Z.eqb_refl. simpl.
  destruct (Z.eqb_spec (seqnum p) (expectedseqnum s)) as [-> | _]; simpl;
    split; reflexivity || lia.
Qed.

Lemma Draft_B_input_drops_mismatching p s :
  checksum p <> ComputeChecksum p -> Draft.B_input p s = (s, []).
Proof.
  intros H. unfold Draft.B_input, Draft.IsCorrupted, CInt.lnot.
  destruct (Z.eqb_spec (checksum p) (ComputeChecksum p)); [done |].
  reflexivity.
Qed.

(** *** The slot of a sequence number below the base *)

(** C4 at a concrete input.  In [base6_state] the base of the window is 6,
    slot 0 is not acknowledged, and no acknowledgement for 6 has been
    processed.  The acknowledgement for 0, the sequence number after the
    base, moves the base. *)
Theorem C4_window_slides_without_base_ack :
  run (six_sends ++ six_acks ++ three_sends) initial_state <> None /\
  windowfirst base6_state = 6 /\
  acknum <$> buffer base6_state !! 0%nat = Some NOTINUSE /\
  acknum (garbled_ack 0) = (6 + 1) mod SEQSPACE /\
  (let r := A_input (garbled_ack 0) base6_state in
   r <> None /\ windowfirst (state_of r) = 0 /\
   windowcount base6_state = 3 /\ windowcount (state_of r) = 2).
Proof. vm_compute. repeat split; try discriminate; try reflexivity. Qed.

(** The slide also passes slots that were never used: [A_init] leaves
    their [acknum] at zero, which is not [NOTINUSE].  After two messages,
    the acknowledgement for 1 leaves the base at 0, and the acknowledgement
    for 0 then moves it by six slots instead of two. *)
Lemma slide_passes_unused_slots :
  let sends := [Call_A_output (msg_of 97); Call_A_output (msg_of 98)] in
  let s1 := state_of (run (sends ++ [Call_A_input (garbled_ack 1)])
                          initial_state) in
  let s2 := state_of (A_input (garbled_ack 0) s1) in
  windowfirst s1 = 0 /\ windowcount s1 = 1 /\
  windowfirst s2 = 6 /\ windowcount s2 = 0 /\ A_nextseqnum s2 = 2.
Proof. vm_compute. repeat split; reflexivity. Qed.

(** *** The constants *)

(** C8 on the constants of sr.c: the sequence space is the window size
    plus one, less than twice the window size, and [A_init] sets its four
    variables whatever the constants are. *)
Theorem C8_seqspace_is_windowsize_plus_one :
  SEQSPACE = WINDOWSIZE + 1 /\ SEQSPACE < 2 * WINDOWSIZE /\
  (forall s,
     A_nextseqnum (A_init s) = 0 /\ windowfirst (A_init s) = 0 /\
     windowlast (A_init s) = -1 /\ windowcount (A_init s) = 0).
Proof. repeat split; reflexivity. Qed.

Lemma Draft_seqspace : Draft.SEQSPACE = 2 * WINDOWSIZE.
Proof. reflexivity. Qed.

(** *** What does hold of the slide *)

(** While slot 0 is not acknowledged, an acknowledgement number above the
    base is recorded without moving the window or touching the timer. *)
Lemma A_input_above_base_keeps_window p s s' out base_pkt :
  CInt.in_range (acknum p) -> CInt.in_range (windowfirst s) ->
  rd (buffer s) 0 = Some base_pkt -> acknum base_pkt = NOTINUSE ->
  windowfirst s < acknum p ->
  A_input p s = Some (s', out) ->
  windowfirst s' = windowfirst s /\ out = [] /\
  rd (buffer s') 0 = Some base_pkt.
Proof.
  intros Ha Hw Hb Hu Hlt. unfold A_input.
  destruct (CInt.lnot _); [| intros [= <- <-]; done].
  destruct (in_window _ _ _); [| intros [= <- <-]; done].
  destruct (Z.leb_spec (windowfirst s) (acknum p)); [| lia].
  assert (Hidx : acknum p -i windowfirst s <> 0).
  { unfold CInt.sub. intros H0.
    assert (H1 : CInt.wrap 0 = 0) by reflexivity.
    rewrite <- H1 in H0. apply wrap_inj_close in H0; [lia |].
    unfold CInt.in_range, CInt.INT_MIN, CInt.INT_MAX in *. lia. }
  destruct (mark_acked _ _ _) as [s2 |] eqn:Hm; simpl; [| discriminate].
  assert (H2 : windowfirst s2 = windowfirst s /\
               rd (buffer s2) 0 = Some base_pkt).
  { unfold mark_acked in Hm. simpl in Hm.
    destruct (rd (buffer s) (acknum p -i windowfirst s)) as [slot |];
      simpl in Hm; [| discriminate].
    destruct (_ =? _).
    - destruct (wr _ _ _) as [b |] eqn:Hwr; simpl in Hm; [| discriminate].
      injection Hm as <-. simpl. split; [reflexivity |].
      rewrite (rd_wr_other _ _ _ 0 _ Hwr); [exact Hb | lia | congruence].
    - injection Hm as <-. simpl. split; [reflexivity | exact Hb]. }
  destruct H2 as [Hw2 Hb2].
  unfold try_slide. change (iterations 0 WINDOWSIZE) with 6%nat.
  simpl count_slide. rewrite Hb2. simpl. rewrite Hu. simpl.
  intros [= <- <-]. done.
Qed.

(** * Further properties of sr.c *)

(** ** The window and its slots *)

(** X1: on sequence numbers the two-case window test holds exactly for the
    [WINDOWSIZE] numbers that follow the base cyclically; the one number
    it refuses is the one just before the base. *)
Theorem window_test_is_cyclic base x :
  is_seqnum base -> is_seqnum x ->
  (in_window base (window_last base) x = true
   <-> (x - base) mod SEQSPACE < WINDOWSIZE) /\
  (in_window base (window_last base) x = false
   <-> x = (base - 1) mod SEQSPACE).
Proof.
  intros Hb Hx. seqnum_cases Hb; seqnum_cases Hx; vm_compute;
    (split; split; intros H; solve [discriminate H | reflexivity
                                   | exfalso; apply H; reflexivity ]).
Qed.

Lemma window_test_is_cyclic_witness :
  is_seqnum 5 /\ is_seqnum 1 /\
  in_window 5 (window_last 5) 1 = true /\
  in_window 5 (window_last 5) 4 = false.
Proof.
  assert (H5 : is_seqnum 5) by (vm_compute; split; discriminate || reflexivity).
  assert (H1 : is_seqnum 1) by (vm_compute; split; discriminate || reflexivity).
  assert (H4 : is_seqnum 4) by (vm_compute; split; discriminate || reflexivity).
  split; [exact H5 |]. split; [exact H1 |]. split.
  - apply (proj1 (window_test_is_cyclic 5 1 H5 H1)). vm_compute. reflexivity.
  - apply (proj2 (window_test_is_cyclic 5 4 H5 H4)). vm_compute. reflexivity.
Defined.

(** X3: inside the window [A_output] and [A_input] compute the same slot
    for the same sequence number.  For a number not below the base it is
    the cyclic distance from the base; for a number below the base it is
    one less, so that whenever the window wraps beyond 0 the sequence
    numbers 6 and 0 share a slot. *)
Theorem window_slots base x :
  is_seqnum base -> is_seqnum x ->
  in_window base (window_last base) x = true ->
  output_slot base x = input_slot base x /\
  output_slot base x
  = (if base <=? x then (x - base) mod SEQSPACE
     else (x - base) mod SEQSPACE - 1) /\
  (2 <= base ->
   in_window base (window_last base) 6 = true /\
   in_window base (window_last base) 0 = true /\
   output_slot base 6 = output_slot base 0).
Proof.
  intros Hb Hx. seqnum_cases Hb; seqnum_cases Hx; vm_compute;
    intros H; try discriminate H;
    (split; [reflexivity | split; [reflexivity |]]);
    intros H2; solve [exfalso; apply H2; reflexivity | repeat split].
Qed.

Lemma window_slots_witness :
  is_seqnum 3 /\ is_seqnum 0 /\ in_window 3 (window_last 3) 0 = true /\
  output_slot 3 0 = input_slot 3 0 /\ output_slot 3 0 = 3 /\
  output_slot 3 6 = output_slot 3 0.
Proof.
  assert (H3 : is_seqnum 3) by (vm_compute; split; discriminate || reflexivity).
  assert (H0 : is_seqnum 0) by (vm_compute; split; discriminate || reflexivity).
  assert (Hin : in_window 3 (window_last 3) 0 = true) by (vm_compute; reflexivity).
  destruct (window_slots 3 0 H3 H0 Hin) as (Ha & Hb & Hc).
  split; [exact H3 |]. split; [exact H0 |]. split; [exact Hin |].
  split; [exact Ha |]. split; [rewrite Hb; vm_compute; reflexivity |].
  apply Hc. vm_compute. discriminate.
Defined.

(** ** The sender, step by step *)

Lemma rd_wr_same {X : Type} (arr arr' : list X) i v :
  wr arr i v = Some arr' -> rd arr' i = Some v.
Proof.
  unfold wr, rd. intros H.
  destruct (bool_decide_reflect (0 <= i < Z.of_nat (length arr)));
    [| discriminate].
  injection H as <-. rewrite bool_decide_eq_true_2 by lia.
  apply list_lookup_insert_eq. lia.
Qed.

Lemma next_seqnum n :
  is_seqnum n -> (n +i 1) %i SEQSPACE = (n + 1) mod SEQSPACE.
Proof.
  intros Hn. unfold is_seqnum, SEQSPACE in *.
  rewrite add_small by (apply small_in_range; lia).
  unfold CInt.rem. rewrite Z.rem_mod_nonneg by lia. reflexivity.
Qed.

(** X2: a message that arrives while [A_nextseqnum] is inside the window
    is sent as one packet with that sequence number, no acknowledgement
    number, the 20 characters of the message and their checksum; the
    packet is kept in its slot of [buffer] and no other slot changes; the
    count of outstanding packets grows by one and [A_nextseqnum] moves on
    cyclically.  The base, the counters and the receiver are untouched. *)
Theorem A_output_accepts m s :
  sender_ok s ->
  in_window (windowfirst s) (window_last (windowfirst s)) (A_nextseqnum s)
  = true ->
  let sendpkt := make_sendpkt (A_nextseqnum s) m in
  let slot := output_slot (windowfirst s) (A_nextseqnum s) in
  exists s' timer,
    A_output m s = Some (s', tolayer3 A sendpkt :: timer) /\
    timer = (if windowcount s' =? 1 then [starttimer A RTT] else []) /\
    seqnum sendpkt = A_nextseqnum s /\ acknum sendpkt = NOTINUSE /\
    payload sendpkt = take PAYLOAD_LEN (data m) /\
    checksum sendpkt = ComputeChecksum sendpkt /\
    0 <= slot < WINDOWSIZE /\
    rd (buffer s') slot = Some sendpkt /\
    (forall j, 0 <= j -> j <> slot -> rd (buffer s') j = rd (buffer s) j) /\
    windowcount s' = windowcount s +i 1 /\
    A_nextseqnum s' = (A_nextseqnum s + 1) mod SEQSPACE /\
    s' = set_A_nextseqnum (A_nextseqnum s')
           (set_windowcount (windowcount s')
              (set_buffer (buffer s') s)).
Proof.
  intros Hok Hin sendpkt slot. pose proof Hok as (Hlen & Hw & Hn).
  pose proof (output_index_in_bounds _ _ Hw Hn Hin) as Hidx.
  fold (output_slot (windowfirst s) (A_nextseqnum s)) in Hidx. fold slot in Hidx.
  destruct (wr_defined (buffer s) slot sendpkt) as [b Hb];
    [rewrite Hlen; exact Hidx |].
  unfold A_output. rewrite Hin.
  fold (output_slot (windowfirst s) (A_nextseqnum s)). fold slot. fold sendpkt.
  rewrite Hb. simpl.
  eexists _, _. split; [reflexivity |]. simpl.
  split; [reflexivity |]. split; [reflexivity |]. split; [reflexivity |].
  split; [reflexivity |]. split; [apply make_sendpkt_checksum |].
  split; [exact Hidx |]. split; [exact (rd_wr_same _ _ _ _ Hb) |].
  split; [intros j Hj Hne; exact (rd_wr_other _ _ _ j _ Hb Hj Hne) |].
  split; [reflexivity |]. split; [apply next_seqnum, Hn |]. reflexivity.
Qed.

Lemma A_output_accepts_witness :
  sender_ok initial_state /\
  in_window (windowfirst initial_state) (window_last (windowfirst initial_state))
            (A_nextseqnum initial_state) = true /\
  exists s' timer,
    A_output (msg_of 97) initial_state
    = Some (s', tolayer3 A data_pkt0 :: timer) /\
    rd (buffer s') 0 = Some data_pkt0 /\ A_nextseqnum s' = 1.
Proof.
  assert (Hin : in_window (windowfirst initial_state)
                          (window_last (windowfirst initial_state))
                          (A_nextseqnum initial_state) = true)
    by (vm_compute; reflexivity).
  split; [exact initial_sender_ok |]. split; [exact Hin |].
  destruct (A_output_accepts (msg_of 97) initial_state initial_sender_ok Hin)
    as (s' & timer & H & _ & _ & _ & _ & _ & _ & Hrd & _ & _ & Hn & _).
  exists s', timer. split; [exact H |]. split; [exact Hrd |].
  rewrite Hn. vm_compute. reflexivity.
Defined.

(** X4: a packet that [A_input] takes for an acknowledgement, with a number
    outside the window, is counted in [total_ACKs_received] and otherwise
    ignored: no slot, no other counter and no timer is touched. *)
Theorem A_input_outside_window p s :
  checksum p <> ComputeChecksum p ->
  in_window (windowfirst s) (window_last (windowfirst s)) (acknum p) = false ->
  A_input p s
  = Some (set_total_ACKs_received (total_ACKs_received s +i 1) s, []).
Proof.
  intros Hne Hout. unfold A_input. rewrite lnot_IsCorrupted.
  destruct (Z.eqb_spec (checksum p) (ComputeChecksum p)); [done |].
  simpl. rewrite Hout. reflexivity.
Qed.

Lemma A_input_outside_window_witness :
  checksum (garbled_ack 6) <> ComputeChecksum (garbled_ack 6) /\
  in_window (windowfirst one_sent_state)
            (window_last (windowfirst one_sent_state))
            (acknum (garbled_ack 6)) = false /\
  A_input (garbled_ack 6) one_sent_state
  = Some (set_total_ACKs_received 1 one_sent_state, []).
Proof.
  assert (Hne : checksum (garbled_ack 6) <> ComputeChecksum (garbled_ack 6))
    by (vm_compute; discriminate).
  assert (Hout : in_window (windowfirst one_sent_state)
                           (window_last (windowfirst one_sent_state))
                           (acknum (garbled_ack 6)) = false)
    by (vm_compute; reflexivity).
  split; [exact Hne |]. split; [exact Hout |].
  rewrite (A_input_outside_window _ _ Hne Hout). vm_compute. reflexivity.
Defined.

Lemma try_slide_frame s s' out :
  try_slide s = Some (s', out) ->
  s' = set_buffer (buffer s') (set_windowfirst (windowfirst s') s).
Proof.
  unfold try_slide. intros H.
  destruct (count_slide _ _ _ _) as [slide |]; simpl in H; [| discriminate].
  destruct (0 <? slide).
  - destruct (shift_loop _ _ _ _) as [x |]; simpl in H; [| discriminate].
    destruct (clear_loop _ _ _) as [y |]; simpl in H; [| discriminate].
    injection H as <- _. reflexivity.
  - injection H as <- _. destruct s; reflexivity.
Qed.

(** X5: whatever [A_input] does with a packet, it leaves [A_nextseqnum],
    [windowlast], the counters [window_full], [packets_resent] and
    [packets_received] and all variables of the receiver but the shared
    [windowfirst] as they were; and either it leaves [windowcount] and
    [new_ACKs] alone (a packet not taken, out of the window, or for a slot
    that holds an acknowledgement already), or it takes one from
    [windowcount] and adds one to [new_ACKs] and to
    [total_ACKs_received]. *)
Theorem A_input_accounting p s s' out :
  A_input p s = Some (s', out) ->
  A_nextseqnum s' = A_nextseqnum s /\ windowlast s' = windowlast s /\
  window_full s' = window_full s /\ packets_resent s' = packets_resent s /\
  packets_received s' = packets_received s /\
  expectedseqnum s' = expectedseqnum s /\ B_nextseqnum s' = B_nextseqnum s /\
  buffer_b s' = buffer_b s /\ receivelast s' = receivelast s /\
  ((windowcount s' = windowcount s /\ new_ACKs s' = new_ACKs s) \/
   (windowcount s' = windowcount s -i 1 /\ new_ACKs s' = new_ACKs s +i 1 /\
    total_ACKs_received s' = total_ACKs_received s +i 1)).
Proof.
  unfold A_input. intros H.
  destruct (CInt.lnot _); [| injection H as <- _; repeat split; by left].
  destruct (in_window _ _ _); [| injection H as <- _; repeat split; by left].
  destruct (mark_acked _ _ _) as [s2 |] eqn:Hm; simpl in H; [| discriminate].
  apply try_slide_frame in H. rewrite H. simpl. clear H.
  unfold mark_acked in Hm.
  destruct (rd _ _) as [slot |]; simpl in Hm; [| discriminate].
  destruct (_ =? _).
  - destruct (wr _ _ _) as [b |]; simpl in Hm; [| discriminate].
    injection Hm as <-. simpl. repeat split. by right.
  - injection Hm as <-. simpl. repeat split. by left.
Qed.

Lemma A_input_accounting_witness :
  exists s' out,
    A_input (garbled_ack 0) one_sent_state = Some (s', out) /\
    A_nextseqnum s' = A_nextseqnum one_sent_state /\
    windowcount s' = 0 /\ new_ACKs s' = 1.
Proof.
  destruct (A_input (garbled_ack 0) one_sent_state) as [[s' out] |] eqn:H;
    [| vm_compute in H; discriminate H].
  exists s', out. split; [reflexivity |].
  destruct (A_input_accounting _ _ _ _ H) as (Hn & _).
  split; [exact Hn |].
  vm_compute in H. injection H as <- _. split; reflexivity.
Defined.

(** ** The slide *)

Lemma ack_prefix_le b : (ack_prefix b <= length b)%nat.
Proof.
  induction b as [| p b IH]; simpl; [lia |].
  destruct (acknum p =? NOTINUSE); lia.
Qed.

(** A list of six elements, element by element. *)
Ltac six_slots b H :=
  destruct b as [| ?b0 [| ?b1 [| ?b2 [| ?b3 [| ?b4 [| ?b5 [| ? ?]]]]]]];
  try discriminate H.

Lemma count_slide_prefix (b : list pkt) :
  length b = Z.to_nat WINDOWSIZE ->
  count_slide (iterations 0 WINDOWSIZE) 0 b 0 = Some (Z.of_nat (ack_prefix b)).
Proof.
  intros H. six_slots b H.
  change (iterations 0 WINDOWSIZE) with 6%nat.
  unfold ack_prefix, count_slide, rd. simpl.
  repeat (match goal with
          | |- context [acknum ?p =? NOTINUSE] =>
              destruct (acknum p =? NOTINUSE); [reflexivity |]
          end).
  reflexivity.
Qed.

Lemma shift_loop_drop (b : list pkt) (k : nat) :
  length b = Z.to_nat WINDOWSIZE -> (1 <= k <= 6)%nat ->
  shift_loop (iterations 0 (WINDOWSIZE -i Z.of_nat k)) 0 (Z.of_nat k) b
  = Some (drop k b ++ drop (6 - k) b).
Proof.
  intros H Hk. six_slots b H.
  assert (Hc : k = 1%nat \/ k = 2%nat \/ k = 3%nat \/ k = 4%nat \/ k = 5%nat
               \/ k = 6%nat) by lia.
  destruct Hc as [-> | [-> | [-> | [-> | [-> | ->]]]]];
    vm_compute; reflexivity.
Qed.

Lemma clear_loop_tail (b : list pkt) (k : nat) :
  length b = Z.to_nat WINDOWSIZE -> (1 <= k <= 6)%nat ->
  clear_loop (iterations (WINDOWSIZE -i Z.of_nat k) WINDOWSIZE)
             (WINDOWSIZE -i Z.of_nat k) (drop k b ++ drop (6 - k) b)
  = Some (drop k b ++ (clear_slot <$> drop (6 - k) b)).
Proof.
  intros H Hk. six_slots b H.
  assert (Hc : k = 1%nat \/ k = 2%nat \/ k = 3%nat \/ k = 4%nat \/ k = 5%nat
               \/ k = 6%nat) by lia.
  destruct Hc as [-> | [-> | [-> | [-> | [-> | ->]]]]];
    vm_compute; reflexivity.
Qed.

(** X6: the slide of [A_input] moves the window by the number [k] of slots
    at the front of [buffer] that hold an acknowledgement.  For [k = 0]
    nothing happens.  Otherwise the base advances by [k] cyclically, the
    slots move [k] places to the front, the last [k] slots get [NOTINUSE]
    and an empty payload while keeping the sequence number and checksum
    they held, the timer is stopped, and it is started again when
    [windowcount] is positive. *)
Theorem slide_shifts_and_clears s :
  length (buffer s) = Z.to_nat WINDOWSIZE ->
  let k := ack_prefix (buffer s) in
  try_slide s
  = Some (if decide (k = O) then (s, [])
          else
            (set_buffer
               (drop k (buffer s) ++ (clear_slot <$> drop (6 - k) (buffer s)))
               (set_windowfirst
                  ((windowfirst s +i Z.of_nat k) %i SEQSPACE) s),
             stoptimer A
               :: (if 0 <? windowcount s then [starttimer A RTT] else []))).
Proof.
  intros Hlen k. unfold try_slide.
  rewrite (count_slide_prefix _ Hlen). fold k. simpl.
  pose proof (ack_prefix_le (buffer s)) as Hle. fold k in Hle.
  rewrite Hlen in Hle. change (Z.to_nat WINDOWSIZE) with 6%nat in Hle.
  destruct (decide (k = O)) as [-> | Hk]; [reflexivity |].
  destruct (Z.ltb_spec 0 (Z.of_nat k)); [| lia].
  rewrite (shift_loop_drop _ k Hlen) by lia. simpl.
  rewrite (clear_loop_tail _ k Hlen) by lia. reflexivity.
Qed.

Lemma slide_shifts_and_clears_witness :
  let s := state_of (run (six_sends ++ [Call_A_input (garbled_ack 1)])
                         initial_state) in
  let s2 := default s (mark_acked 0 (garbled_ack 0) s) in
  length (buffer s2) = Z.to_nat WINDOWSIZE /\
  ack_prefix (buffer s2) = 2%nat /\
  snd <$> try_slide s2 = Some [stoptimer A; starttimer A RTT] /\
  windowfirst (state_of (try_slide s2)) = 2 /\
  map seqnum (buffer (state_of (try_slide s2))) = [2; 3; 4; 5; 4; 5] /\
  map acknum (buffer (state_of (try_slide s2))) = [-1; -1; -1; -1; -1; -1].
Proof.
  intros s s2.
  assert (Hlen : length (buffer s2) = Z.to_nat WINDOWSIZE) by reflexivity.
  split; [exact Hlen |]. split; [vm_compute; reflexivity |].
  rewrite (slide_shifts_and_clears s2 Hlen).
  vm_compute. repeat split; reflexivity.
Defined.

(** ** Runs of the sender *)

Lemma sender_step_defined i s :
  sender_ok s -> sender_call i ->
  exists s' out, step i s = Some (s', out) /\ sender_ok s'.
Proof.
  intros Hok Hc. destruct i as [m | p | | p]; simpl in *.
  - by apply A_output_defined.
  - by apply A_input_defined.
  - by apply A_timerinterrupt_defined.
  - done.
Qed.

(** X7: started in a state with a six-slot [buffer] and with [windowfirst]
    and [A_nextseqnum] in [0..6], every sequence of messages, timer
    interrupts and packets whose acknowledgement number is in [0..6] runs
    to the end without an access outside [buffer], and ends in such a
    state again. *)
Theorem sender_runs_stay_in_bounds calls : forall s,
  sender_ok s -> Forall sender_call calls ->
  exists s' out, run calls s = Some (s', out) /\ sender_ok s'.
Proof.
  induction calls as [| i calls IH]; intros s Hok Hall; simpl.
  - by eexists _, _.
  - inversion_clear Hall as [| ? ? Hi Hrest].
    destruct (sender_step_defined i s Hok Hi) as (s1 & out1 & H1 & Hok1).
    rewrite H1. simpl.
    destruct (IH s1 Hok1 Hrest) as (s2 & out2 & H2 & Hok2).
    rewrite H2. simpl. by eexists _, _.
Qed.

Lemma sender_runs_stay_in_bounds_witness :
  sender_ok initial_state /\
  Forall sender_call (six_sends ++ six_acks ++ three_sends) /\
  exists s' out,
    run (six_sends ++ six_acks ++ three_sends) initial_state = Some (s', out)
    /\ sender_ok s'.
Proof.
  assert (Hall : Forall sender_call (six_sends ++ six_acks ++ three_sends)).
  { cbv [six_sends six_acks three_sends map app].
    repeat (apply List.Forall_cons); try apply List.Forall_nil; vm_compute;
      first [exact I | split; (discriminate || reflexivity)]. }
  split; [exact initial_sender_ok |]. split; [exact Hall |].
  exact (sender_runs_stay_in_bounds _ _ initial_sender_ok Hall).
Defined.

(** Outside [0..6] an acknowledgement number can lead [A_input] out of
    [buffer]: with the base at 6 the window test lets every larger number
    pass. *)
Lemma A_input_large_acknum_undefined :
  A_input (set_acknum 1000 (garbled_ack 0)) base6_state = None.
Proof. vm_compute. reflexivity. Qed.

Lemma run_cons i calls s s1 out1 s2 out2 :
  step i s = Some (s1, out1) -> run calls s1 = Some (s2, out2) ->
  run (i :: calls) s = Some (s2, out1 ++ out2).
Proof. intros H1 H2. simpl. rewrite H1. simpl. rewrite H2. reflexivity. Qed.

Lemma A_output_accepts_step m s :
  sender_ok s ->
  (A_nextseqnum s - windowfirst s) mod SEQSPACE < WINDOWSIZE ->
  exists s' out,
    A_output m s = Some (s', out) /\ sender_ok s' /\
    sent_by A out = [make_sendpkt (A_nextseqnum s) m] /\
    windowfirst s' = windowfirst s /\ window_full s' = window_full s /\
    A_nextseqnum s' = (A_nextseqnum s + 1) mod SEQSPACE.
Proof.
  intros Hok Hd. pose proof Hok as (Hlen & Hw & Hn).
  assert (Hin : in_window (windowfirst s) (window_last (windowfirst s))
                          (A_nextseqnum s) = true).
  { rewrite in_window_cyclic by done. unfold in_cyclic_window_spec.
    by apply Z.ltb_lt. }
  destruct (A_output_defined m s Hok) as (s' & out & H & Hok').
  exists s', out. split; [exact H |]. split; [exact Hok' |].
  unfold A_output in H. rewrite Hin in H.
  destruct (wr _ _ _) as [b |]; simpl in H; [| discriminate].
  injection H as <- <-. simpl.
  split; [destruct (_ =? 1); reflexivity |].
  split; [reflexivity |]. split; [reflexivity |]. by apply next_seqnum.
Qed.

(** X8: how many messages the sender takes.  Let [d] be the cyclic
    distance of [A_nextseqnum] from the base.  As long as no
    acknowledgement is processed, the next [WINDOWSIZE - d] messages are
    sent, one packet each with consecutive sequence numbers, and every
    message after them is refused and only counted in [window_full]. *)
Theorem sender_capacity ms : forall s,
  sender_ok s ->
  let d := (A_nextseqnum s - windowfirst s) mod SEQSPACE in
  d + Z.of_nat (length ms) <= WINDOWSIZE ->
  exists s' out,
    run (Call_A_output <$> ms) s = Some (s', out) /\ sender_ok s' /\
    map seqnum (sent_by A out)
    = (fun j => (A_nextseqnum s + Z.of_nat j) mod SEQSPACE)
        <$> seq 0 (length ms) /\
    map payload (sent_by A out) = (fun m => take PAYLOAD_LEN (data m)) <$> ms /\
    windowfirst s' = windowfirst s /\ window_full s' = window_full s /\
    (A_nextseqnum s' - windowfirst s') mod SEQSPACE
    = d + Z.of_nat (length ms) /\
    (d + Z.of_nat (length ms) = WINDOWSIZE ->
     forall m,
       A_output m s' = Some (set_window_full (window_full s' +i 1) s', [])).
Proof.
  induction ms as [| m ms IH]; intros s Hok d Hd.
  - simpl. eexists _, _. split; [reflexivity |]. split; [exact Hok |].
    repeat split; try reflexivity.
    + simpl. fold d. lia.
    + intros Hfull m'. simpl in Hfull.
      destruct Hok as (_ & Hw & Hn).
      apply A_output_outside_cyclic_window; [done | done |].
      unfold in_cyclic_window_spec. fold d. apply Z.ltb_ge. lia.
  - simpl in Hd.
    assert (Hd0 : 0 <= d) by (apply Z.mod_pos_bound; unfold SEQSPACE; lia).
    destruct (A_output_accepts_step m s Hok)
      as (s1 & out1 & H1 & Hok1 & Hs1 & Hw1 & Hf1 & Hn1); [fold d; lia |].
    assert (Hd1 : (A_nextseqnum s1 - windowfirst s1) mod SEQSPACE = d + 1).
    { rewrite Hn1, Hw1. rewrite Zminus_mod_idemp_l.
      replace (A_nextseqnum s + 1 - windowfirst s)
        with ((A_nextseqnum s - windowfirst s) + 1) by lia.
      rewrite <- Zplus_mod_idemp_l. fold d.
      apply Z.mod_small. unfold SEQSPACE, WINDOWSIZE in *. lia. }
    destruct (IH s1 Hok1) as (s2 & out2 & H2 & Hok2 & Hs2 & Hp2 & Hw2 & Hf2
                               & Hd2 & Hfull2); [rewrite Hd1; lia |].
    exists s2, (out1 ++ out2).
    split; [exact (run_cons (Call_A_output m) _ _ _ _ _ _ H1 H2) |].
    split; [exact Hok2 |].
    assert (Hsent : sent_by A (out1 ++ out2)
                    = make_sendpkt (A_nextseqnum s) m :: sent_by A out2).
    { unfold sent_by in *. rewrite omap_app, Hs1. reflexivity. }
    rewrite Hsent. simpl.
    split; [| split; [| split; [| split; [| split]]]].
    + destruct Hok as (_ & _ & Hn). f_equal.
      * change (Z.of_nat 0) with 0. rewrite Z.add_0_r, Z.mod_small; done.
      * rewrite Hs2.
        change (seq 1 (length ms)) with (seq (S 0) (length ms)).
        rewrite <- fmap_S_seq.
        change (list_fmap nat Z ?f (S <$> ?l)) with (f <$> (S <$> l)).
        rewrite <- list_fmap_compose.
        apply list_fmap_ext. intros _ j _. simpl. rewrite Hn1.
        rewrite Zplus_mod_idemp_l. f_equal. lia.
    + f_equal. exact Hp2.
    + congruence.
    + congruence.
    + rewrite Hd2, Hd1. lia.
    + intros Hfull. apply Hfull2. rewrite Hd1. lia.
Qed.

Lemma sender_capacity_witness :
  sender_ok initial_state /\
  exists s' out,
    run (Call_A_output <$> (msg_of <$> [97; 98; 99; 100; 101; 102]))
        initial_state = Some (s', out) /\
    map seqnum (sent_by A out) = [0; 1; 2; 3; 4; 5] /\
    A_output (msg_of 103) s'
    = Some (set_window_full (window_full s' +i 1) s', []).
Proof.
  split; [exact initial_sender_ok |].
  destruct (sender_capacity (msg_of <$> [97; 98; 99; 100; 101; 102])
                            initial_state initial_sender_ok)
    as (s' & out & H & _ & Hs & _ & _ & _ & _ & Hfull).
  - vm_compute. discriminate.
  - exists s', out. split; [exact H |]. split.
    + rewrite Hs. vm_compute. reflexivity.
    + apply Hfull. vm_compute. reflexivity.
Defined.

(** ** The receiver *)

Lemma shift_b_loop_length fuel : forall i pckcount last buf buf',
  shift_b_loop fuel i pckcount last buf = Some buf' ->
  length buf' = length buf.
Proof.
  induction fuel as [| fuel IH]; intros i pckcount last buf buf' H;
    simpl in H.
  - by injection H as <-.
  - destruct (_ <=? _); [| by eapply IH].
    destruct (rd _ _) as [p |]; simpl in H; [| discriminate].
    destruct (wr _ _ _) as [b1 |] eqn:Hw; simpl in H; [| discriminate].
    rewrite (IH _ _ _ _ _ H). exact (wr_length _ _ _ _ Hw).
Qed.

Lemma deliver_run_frame s s' :
  deliver_run s = Some s' ->
  s' = set_buffer_b (buffer_b s') (set_windowfirst (windowfirst s') s) /\
  length (buffer_b s') = length (buffer_b s).
Proof.
  unfold deliver_run. intros H.
  destruct (count_received _ _ _ _) as [k |];
    cbn -[shift_b_loop iterations] in H; [| discriminate].
  destruct (shift_b_loop _ _ _ _ _) as [b |] eqn:Hs;
    cbn -[shift_b_loop iterations] in H; [| discriminate].
  injection H as <-. split; [reflexivity |].
  cbn -[shift_b_loop iterations].
  exact (shift_b_loop_length _ _ _ _ _ _ Hs).
Qed.

(** X9: [B_input] reacts to a packet only when its checksum field differs
    from its checksum and its sequence number is [expectedseqnum]; it then
    counts the packet, hands the payload to layer 5 and sends an
    acknowledgement carrying that sequence number.  Whatever it does, it
    never touches [buffer], [windowcount], [A_nextseqnum], the counters of
    the sender, [expectedseqnum] or [B_nextseqnum], it keeps the six slots
    of [buffer_b], and [receivelast] never decreases. *)
Theorem B_input_frame p s s' out :
  B_input p s = Some (s', out) ->
  buffer s' = buffer s /\ windowlast s' = windowlast s /\
  windowcount s' = windowcount s /\ A_nextseqnum s' = A_nextseqnum s /\
  window_full s' = window_full s /\
  total_ACKs_received s' = total_ACKs_received s /\
  new_ACKs s' = new_ACKs s /\ packets_resent s' = packets_resent s /\
  expectedseqnum s' = expectedseqnum s /\ B_nextseqnum s' = B_nextseqnum s /\
  length (buffer_b s') = length (buffer_b s) /\
  receivelast s <= receivelast s' /\
  ((out = [] /\ s' = s) \/
   (checksum p <> ComputeChecksum p /\ seqnum p = expectedseqnum s /\
    packets_received s' = packets_received s +i 1 /\
    exists rest,
      out = tolayer5 B (payload p) :: tolayer3 B (make_ackpkt (seqnum p))
            :: rest)).
Proof.
  unfold B_input. rewrite lnot_IsCorrupted. intros H.
  destruct (Z.eqb_spec (checksum p) (ComputeChecksum p)) as [| Hne];
    simpl in H; [injection H as <- <-; repeat split; (lia || by left) |].
  destruct (Z.eqb_spec (seqnum p) (expectedseqnum s)) as [Hseq |];
    [| injection H as <- <-; repeat split; (lia || by left)].
  rewrite <- Hseq in H.
  destruct (in_window _ _ _).
  2: { injection H as <- <-. simpl. repeat split; try lia. right. eauto 10. }
  set (index := if windowfirst s <=? seqnum p then _ else _) in *.
  assert (Hlast : receivelast s
                  <= (if index <? receivelast s then receivelast s else index))
    by (destruct (Z.ltb_spec index (receivelast s)); lia).
  destruct (rd _ _) as [slot |]; simpl in H; [| discriminate].
  destruct (strcmp_ne _ _) as [[|] |]; simpl in H; try discriminate.
  - destruct (wr _ _ _) as [b |] eqn:Hw; simpl in H; [| discriminate].
    apply wr_length in Hw. simpl in Hw.
    destruct (seqnum p =? windowfirst s).
    + destruct (deliver_run _) as [s4 |] eqn:Hd; simpl in H; [| discriminate].
      injection H as <- <-. apply deliver_run_frame in Hd as [-> Hl].
      simpl in *. repeat split; try lia. right. eauto 10.
    + simpl in H. injection H as <- <-. simpl.
      repeat split; try lia. right. eauto 10.
  - injection H as <- <-. simpl. repeat split; try lia. right. eauto 10.
Qed.

Lemma B_input_frame_witness :
  exists s' out,
    B_input garbled_pkt0 initial_state = Some (s', out) /\
    buffer s' = buffer initial_state /\ packets_received s' = 1 /\
    expectedseqnum s' = 0.
Proof.
  destruct (B_input garbled_pkt0 initial_state) as [[s' out] |] eqn:H;
    [| vm_compute in H; discriminate H].
  exists s', out. split; [reflexivity |].
  destruct (B_input_frame _ _ _ _ H)
    as (Hb & _ & _ & _ & _ & _ & _ & _ & He & _ & _ & _ & Hcase).
  split; [exact Hb |]. split.
  - destruct Hcase as [[Ho _] | (_ & _ & Hr & _)].
    + vm_compute in H. rewrite Ho in H. discriminate H.
    + rewrite Hr. vm_compute. reflexivity.
  - rewrite He. reflexivity.
Defined.

Lemma step_expectedseqnum i s s' out :
  step i s = Some (s', out) ->
  expectedseqnum s' = expectedseqnum s /\
  (forall q, q ∈ sent_by B out -> acknum q = expectedseqnum s).
Proof.
  destruct i as [m | p | | p]; simpl; intros H.
  - unfold A_output in H. destruct (in_window _ _ _).
    + destruct (wr _ _ _) as [b |]; simpl in H; [| discriminate].
      injection H as <- <-. split; [reflexivity |].
      intros q Hq. destruct (_ =? 1); by apply elem_of_nil in Hq.
    + injection H as <- <-. split; [reflexivity |].
      intros q Hq. by apply elem_of_nil in Hq.
  - split.
    + unfold A_input in H.
      destruct (CInt.lnot _); [| by injection H as <- _].
      destruct (in_window _ _ _); [| by injection H as <- _].
      destruct (mark_acked _ _ _) as [s2 |] eqn:Hm; simpl in H;
        [| discriminate].
      apply try_slide_frame in H. rewrite H. simpl.
      unfold mark_acked in Hm.
      destruct (rd _ _) as [slot |]; simpl in Hm; [| discriminate].
      destruct (_ =? _).
      * destruct (wr _ _ _) as [b |]; simpl in Hm; [| discriminate].
        by injection Hm as <-.
      * by injection Hm as <-.
    + intros q Hq.
      destruct (A_input_events _ _ _ _ H) as [[-> _] | [[-> _] | [-> _]]];
        by apply elem_of_nil in Hq.
  - unfold A_timerinterrupt in H. destruct (0 <? _).
    + destruct (rd _ _) as [b |]; simpl in H; [| discriminate].
      injection H as <- <-. split; [reflexivity |].
      intros q Hq. by apply elem_of_nil in Hq.
    + injection H as <- <-. split; [reflexivity |].
      intros q Hq. by apply elem_of_nil in Hq.
  - split.
    + unfold B_input in H.
      destruct (_ && _); [| by injection H as <- _].
      destruct (in_window _ _ _); [| by injection H as <- _].
      destruct (rd _ _) as [slot |]; simpl in H; [| discriminate].
      destruct (strcmp_ne _ _) as [[|] |]; simpl in H; try discriminate;
        [| by injection H as <- _].
      destruct (wr _ _ _) as [b |]; simpl in H; [| discriminate].
      destruct (_ =? _).
      * destruct (deliver_run _) as [s4 |] eqn:Hd; simpl in H;
          [| discriminate].
        injection H as <- _. apply deliver_run_frame in Hd as [-> _].
        reflexivity.
      * simpl in H. by injection H as <- _.
    + intros q Hq.
      destruct (B_input_sent _ _ _ _ H) as [E | E]; rewrite E in Hq.
      * by apply elem_of_nil in Hq.
      * apply list_elem_of_singleton in Hq as ->. reflexivity.
Qed.

Lemma sent_by_app who out1 out2 :
  sent_by who (out1 ++ out2) = sent_by who out1 ++ sent_by who out2.
Proof. unfold sent_by. apply omap_app. Qed.

Lemma delivered_app out1 out2 :
  delivered (out1 ++ out2) = delivered out1 ++ delivered out2.
Proof. unfold delivered. apply omap_app. Qed.

(** X10: no entry point ever assigns [expectedseqnum].  In every run it
    keeps the value it has at the start, every acknowledgement sent
    carries that value, and a packet with another sequence number makes
    [B_input] do nothing; from the initial state the receiver therefore
    reacts to packets with sequence number 0 only. *)
Theorem expectedseqnum_is_constant calls : forall s s' out,
  run calls s = Some (s', out) ->
  expectedseqnum s' = expectedseqnum s /\
  (forall q, q ∈ sent_by B out -> acknum q = expectedseqnum s) /\
  (forall p, seqnum p <> expectedseqnum s -> B_input p s' = Some (s', [])).
Proof.
  induction calls as [| i calls IH]; intros s s' out H; simpl in H.
  - injection H as <- <-. split; [reflexivity |]. split.
    + intros q Hq. by apply elem_of_nil in Hq.
    + intros p Hp. unfold B_input.
      destruct (Z.eqb_spec (seqnum p) (expectedseqnum s)); [done |].
      rewrite andb_false_r. reflexivity.
  - destruct (step i s) as [[s1 out1] |] eqn:H1; simpl in H; [| discriminate].
    destruct (run calls s1) as [[s2 out2] |] eqn:H2; simpl in H;
      [| discriminate].
    injection H as <- <-.
    destruct (step_expectedseqnum _ _ _ _ H1) as [He1 Hq1].
    destruct (IH _ _ _ H2) as (He2 & Hq2 & Hp2).
    rewrite He1 in *. split; [exact He2 |]. split.
    + intros q Hq. rewrite sent_by_app in Hq.
      apply elem_of_app in Hq as [Hq | Hq]; auto.
    + exact Hp2.
Qed.

Lemma expectedseqnum_is_constant_witness :
  exists s' out,
    run [Call_B_input garbled_pkt0; Call_B_input garbled_pkt0] initial_state
    = Some (s', out) /\
    expectedseqnum s' = 0 /\
    B_input garbled_pkt1 s' = Some (s', []).
Proof.
  destruct (run [Call_B_input garbled_pkt0; Call_B_input garbled_pkt0]
                initial_state) as [[s' out] |] eqn:H;
    [| vm_compute in H; discriminate H].
  exists s', out. split; [reflexivity |].
  destruct (expectedseqnum_is_constant _ _ _ _ H) as (He & _ & Hp).
  split; [exact He |]. apply Hp. vm_compute. discriminate.
Defined.

(** X11: over a channel that alters nothing, nothing gets through.  A run
    in which every packet handed to [A_input] or [B_input] carries the
    checksum of its fields goes through, and in it no payload reaches
    layer 5, the receiver sends no acknowledgement, the base of the window
    never moves and no acknowledgement or packet is ever counted. *)
Theorem clean_channel_makes_no_progress calls : forall s,
  sender_ok s -> Forall clean_call calls ->
  exists s' out,
    run calls s = Some (s', out) /\ sender_ok s' /\
    delivered out = [] /\ sent_by B out = [] /\
    windowfirst s' = windowfirst s /\
    total_ACKs_received s' = total_ACKs_received s /\
    new_ACKs s' = new_ACKs s /\ packets_received s' = packets_received s.
Proof.
  induction calls as [| i calls IH]; intros s Hok Hall.
  - exists s, []. repeat split; apply Hok.
  - inversion_clear Hall as [| ? ? Hi Hrest].
    assert (H1 : exists s1 out1,
               step i s = Some (s1, out1) /\ sender_ok s1 /\
               delivered out1 = [] /\ sent_by B out1 = [] /\
               windowfirst s1 = windowfirst s /\
               total_ACKs_received s1 = total_ACKs_received s /\
               new_ACKs s1 = new_ACKs s /\
               packets_received s1 = packets_received s).
    { destruct i as [m | p | | p]; simpl in *.
      - destruct (A_output_defined m s Hok) as (s1 & out1 & H1 & Hok1).
        exists s1, out1. split; [exact H1 |]. split; [exact Hok1 |].
        unfold A_output in H1. destruct (in_window _ _ _).
        + destruct (wr _ _ _) as [b |]; simpl in H1; [| discriminate].
          injection H1 as <- <-. destruct (_ =? 1); repeat split.
        + injection H1 as <- <-. repeat split.
      - exists s, []. rewrite (A_input_drops_matching _ _ Hi). repeat split;
          apply Hok.
      - destruct (A_timerinterrupt_defined s Hok) as (s1 & out1 & H1 & Hok1).
        exists s1, out1. split; [exact H1 |]. split; [exact Hok1 |].
        unfold A_timerinterrupt in H1. destruct (0 <? _).
        + destruct (rd _ _) as [b |]; simpl in H1; [| discriminate].
          injection H1 as <- <-. repeat split.
        + injection H1 as <- <-. repeat split.
      - exists s, []. rewrite (B_input_drops_matching _ _ Hi). repeat split;
          apply Hok. }
    destruct H1 as (s1 & out1 & H1 & Hok1 & Hd1 & Hb1 & Hw1 & Ht1 & Hn1 & Hr1).
    destruct (IH s1 Hok1 Hrest)
      as (s2 & out2 & H2 & Hok2 & Hd2 & Hb2 & Hw2 & Ht2 & Hn2 & Hr2).
    exists s2, (out1 ++ out2).
    split; [exact (run_cons _ _ _ _ _ _ _ H1 H2) |]. split; [exact Hok2 |].
    rewrite delivered_app, sent_by_app, Hd1, Hd2, Hb1, Hb2.
    repeat split; congruence.
Qed.

Lemma clean_channel_makes_no_progress_witness :
  let calls := [Call_A_output (msg_of 97); Call_B_input data_pkt0;
                Call_A_input (make_ackpkt 0); Call_A_timerinterrupt;
                Call_B_input data_pkt0] in
  sender_ok initial_state /\ Forall clean_call calls /\
  exists s' out,
    run calls initial_state = Some (s', out) /\
    delivered out = [] /\ sent_by B out = [] /\
    sent_by A out = [data_pkt0; data_pkt0] /\ windowfirst s' = 0.
Proof.
  intros calls.
  assert (Hall : Forall clean_call calls).
  { repeat (apply List.Forall_cons); try apply List.Forall_nil;
      vm_compute; first [exact I | reflexivity]. }
  split; [exact initial_sender_ok |]. split; [exact Hall |].
  destruct (clean_channel_makes_no_progress calls initial_state
              initial_sender_ok Hall)
    as (s' & out & H & _ & Hd & Hb & Hw & _).
  exists s', out. split; [exact H |]. split; [exact Hd |].
  split; [exact Hb |]. split.
  - vm_compute in H. injection H as _ <-. vm_compute. reflexivity.
  - rewrite Hw. reflexivity.
Defined.

(** ** What the checksum does not see *)

Lemma sumZ_Permutation l l' : l ≡ₚ l' -> sumZ l = sumZ l'.
Proof. induction 1; simpl; lia. Qed.

(** X12: the checksum is the same for two packets whose payloads hold the
    same characters in a different order and whose sequence and
    acknowledgement numbers have the same sum.  A packet that carries its
    checksum still does after two of its payload characters have changed
    places, or after any other change that keeps the sum. *)
Theorem checksum_blind_to_order p p' :
  length (payload p) = PAYLOAD_LEN ->
  payload p ≡ₚ payload p' ->
  seqnum p + acknum p = seqnum p' + acknum p' ->
  ComputeChecksum p' = ComputeChecksum p /\
  (checksum p = ComputeChecksum p -> checksum p' = checksum p ->
   IsCorrupted p' = -1).
Proof.
  intros Hlen Hperm Hsum.
  assert (Hlen' : length (payload p') = PAYLOAD_LEN)
    by (rewrite <- Hlen; symmetry; by apply Permutation_length).
  assert (Heq : ComputeChecksum p' = ComputeChecksum p).
  { rewrite !ComputeChecksum_sum, !take_payload by done.
    rewrite (sumZ_Permutation _ _ Hperm). f_equal. lia. }
  split; [exact Heq |]. intros Hv Hc. apply IsCorrupted_match. congruence.
Qed.

Lemma checksum_blind_to_order_witness :
  let p := make_sendpkt 0 (Msg (104 :: 105 :: replicate 18 32)) in
  let p' := set_payload (105 :: 104 :: replicate 18 32) p in
  length (payload p) = PAYLOAD_LEN /\ payload p ≡ₚ payload p' /\
  payload p' <> payload p /\ IsCorrupted p' = -1.
Proof.
  intros p p'.
  assert (Hlen : length (payload p) = PAYLOAD_LEN) by reflexivity.
  assert (Hperm : payload p ≡ₚ payload p') by apply perm_swap.
  split; [exact Hlen |]. split; [exact Hperm |].
  split; [vm_compute; discriminate |].
  apply (checksum_blind_to_order p p' Hlen Hperm); reflexivity.
Defined.

(** ** The receiver of the draft *)

(** X13: in the draft (src/unnamed/part_000) a packet that carries its
    checksum and the expected sequence number is delivered once and
    acknowledged, and [expectedseqnum] moves on cyclically; when the same
    packet arrives again it is acknowledged with its own sequence number
    and not delivered again. *)
Theorem Draft_duplicate_not_redelivered p s :
  checksum p = ComputeChecksum p ->
  seqnum p = expectedseqnum s -> 0 <= expectedseqnum s < Draft.SEQSPACE ->
  let r1 := Draft.B_input p s in
  let r2 := Draft.B_input p (fst r1) in
  snd r1 = [tolayer5 B (payload p); tolayer3 B (Draft.make_ackpkt (seqnum p))]
  /\ expectedseqnum (fst r1) = (expectedseqnum s + 1) mod Draft.SEQSPACE /\
  snd r2 = [tolayer3 B (Draft.make_ackpkt (seqnum p))] /\
  expectedseqnum (fst r2) = expectedseqnum (fst r1).
Proof.
  intros Hv Hseq He. unfold Draft.SEQSPACE, WINDOWSIZE in He.
  assert (Hnext : (expectedseqnum s +i 1) %i Draft.SEQSPACE
                  = (expectedseqnum s + 1) mod Draft.SEQSPACE).
  { rewrite add_small by (apply small_in_range; lia).
    unfold CInt.rem, Draft.SEQSPACE, WINDOWSIZE.
    rewrite Z.rem_mod_nonneg by lia. reflexivity. }
  assert (Hne : (expectedseqnum s + 1) mod Draft.SEQSPACE <> expectedseqnum s).
  { unfold Draft.SEQSPACE, WINDOWSIZE.
    destruct (Z.eq_dec (expectedseqnum s) 11) as [-> | Hn]; [done |].
    rewrite Z.mod_small; lia. }
  simpl. unfold Draft.B_input, Draft.IsCorrupted, CInt.lnot.
  rewrite Hv, Z.eqb_refl. cbn [Z.eqb]. cbn [packets_received expectedseqnum
    set_packets_received set_expectedseqnum fst snd].
  rewrite Hseq, Z.eqb_refl. cbn [fst snd expectedseqnum set_expectedseqnum
    set_packets_received].
  rewrite Hnext.
  destruct (Z.eqb_spec (expectedseqnum s)
                       ((expectedseqnum s + 1) mod Draft.SEQSPACE));
    [congruence |].
  repeat split.
Qed.

Lemma Draft_duplicate_not_redelivered_witness :
  let p := Draft.make_ackpkt 0 in
  let q := set_checksum (ComputeChecksum (set_seqnum 0 p)) (set_seqnum 0 p) in
  checksum q = ComputeChecksum q /\ seqnum q = expectedseqnum initial_state /\
  delivered (snd (Draft.B_input q initial_state)) = [payload q] /\
  delivered (snd (Draft.B_input q (fst (Draft.B_input q initial_state)))) = [].
Proof.
  intros p q.
  assert (Hv : checksum q = ComputeChecksum q) by (vm_compute; reflexivity).
  assert (Hs : seqnum q = expectedseqnum initial_state) by reflexivity.
  assert (He : 0 <= expectedseqnum initial_state < Draft.SEQSPACE)
    by (vm_compute; split; discriminate || reflexivity).
  destruct (Draft_duplicate_not_redelivered q initial_state Hv Hs He)
    as (H1 & _ & H2 & _).
  split; [exact Hv |]. split; [exact Hs |].
  rewrite H1, H2. split; reflexivity.
Defined.

(** ** The slide of the draft *)

Lemma clear_loop_last (b : list pkt) (k : nat) :
  length b = Z.to_nat WINDOWSIZE -> (1 <= k <= 6)%nat ->
  clear_loop (iterations (WINDOWSIZE -i Z.of_nat k) WINDOWSIZE)
             (WINDOWSIZE -i Z.of_nat k) b
  = Some (take (6 - k) b ++ (clear_slot <$> drop (6 - k) b)) /\
  clear_loop (iterations (WINDOWSIZE -i Z.of_nat k) WINDOWSIZE)
             (WINDOWSIZE -i Z.of_nat k)
             (take (6 - k) b ++ (clear_slot <$> drop (6 - k) b))
  = Some (take (6 - k) b ++ (clear_slot <$> drop (6 - k) b)).
Proof.
  intros H Hk. six_slots b H.
  assert (Hc : k = 1%nat \/ k = 2%nat \/ k = 3%nat \/ k = 4%nat \/ k = 5%nat
               \/ k = 6%nat) by lia.
  destruct Hc as [-> | [-> | [-> | [-> | [-> | ->]]]]];
    split; vm_compute; reflexivity.
Qed.

Lemma ack_prefix_head (b : list pkt) (k : nat) :
  (0 < ack_prefix b)%nat -> (k < length b)%nat ->
  (0 < ack_prefix (take (length b - k) b
                   ++ (clear_slot <$> drop (length b - k) b)))%nat.
Proof.
  destruct b as [| p b]; intros Hp Hk; [simpl in Hk; lia |].
  cbn [length] in *.
  assert (E : (S (length b) - k = S (length b - k))%nat) by lia.
  rewrite E. cbn [take app ack_prefix]. cbn [ack_prefix] in Hp.
  destruct (acknum p =? NOTINUSE); lia.
Qed.

(** X14: the slide of the draft (src/unnamed/part_000) moves the base by
    the number [k] of slots at the front that hold an acknowledgement,
    modulo its own [SEQSPACE], and clears the last [k] slots, but moves no
    slot: the first [6 - k] slots keep what they held.  After a slide by
    fewer than six slots, slot 0 therefore still holds an
    acknowledgement, and the next slide starts from it again. *)
Theorem Draft_slide_moves_no_slot s :
  length (buffer s) = Z.to_nat WINDOWSIZE ->
  let k := ack_prefix (buffer s) in
  let kept := take (6 - k) (buffer s) in
  let cleared := clear_slot <$> drop (6 - k) (buffer s) in
  DraftSender.try_slide s
  = Some (if decide (k = O) then (s, [])
          else
            (set_buffer (kept ++ cleared)
               (set_windowfirst
                  ((windowfirst s +i Z.of_nat k) %i Draft.SEQSPACE) s),
             stoptimer A
               :: (if 0 <? windowcount s then [starttimer A RTT] else []))) /\
  ((0 < k < 6)%nat -> (0 < ack_prefix (kept ++ cleared))%nat).
Proof.
  intros Hlen k kept cleared.
  pose proof (ack_prefix_le (buffer s)) as Hle. fold k in Hle.
  rewrite Hlen in Hle. change (Z.to_nat WINDOWSIZE) with 6%nat in Hle.
  split.
  - unfold DraftSender.try_slide.
    rewrite (count_slide_prefix _ Hlen). fold k. simpl.
    destruct (decide (k = O)) as [-> | Hk]; [reflexivity |].
    destruct (Z.ltb_spec 0 (Z.of_nat k)); [| lia].
    destruct (clear_loop_last (buffer s) k Hlen) as [H1 H2]; [lia |].
    rewrite H1. simpl. rewrite H2. reflexivity.
  - intros Hk. unfold kept, cleared.
    change 6%nat with (Z.to_nat WINDOWSIZE). rewrite <- Hlen.
    apply ack_prefix_head; [fold k; lia | rewrite Hlen; apply Hk].
Qed.

(** In the draft, with the packets 0 to 5 outstanding, the
    acknowledgement for 1 and then the one for 0 move the base to 2 and
    leave all six packets where they were: slots 0 and 1 still hold their
    acknowledgements, and slots 4 and 5 have lost the payloads of the
    packets 4 and 5, which are not acknowledged. *)
Lemma Draft_slide_moves_no_slot_witness :
  let s2 := default draft_acked1_state
                    (mark_acked 0 (draft_ack 0) draft_acked1_state) in
  let r := DraftSender.A_input (draft_ack 0) draft_acked1_state in
  length (buffer s2) = Z.to_nat WINDOWSIZE /\
  ack_prefix (buffer s2) = 2%nat /\
  windowfirst (state_of (DraftSender.try_slide s2)) = 2 /\
  map seqnum (buffer (state_of (DraftSender.try_slide s2)))
  = [0; 1; 2; 3; 4; 5] /\
  map acknum (buffer (state_of (DraftSender.try_slide s2)))
  = [0; 1; -1; -1; -1; -1] /\
  (0 < ack_prefix (buffer (state_of (DraftSender.try_slide s2))))%nat /\
  buffer (state_of r) = buffer (state_of (DraftSender.try_slide s2)) /\
  windowfirst (state_of r) = 2.
Proof.
  intros s2 r.
  assert (Hlen : length (buffer s2) = Z.to_nat WINDOWSIZE) by reflexivity.
  assert (Hk : ack_prefix (buffer s2) = 2%nat) by (vm_compute; reflexivity).
  split; [exact Hlen |]. split; [exact Hk |].
  destruct (Draft_slide_moves_no_slot s2 Hlen) as [H Hpos].
  rewrite H, Hk. cbn [decide].
  split; [vm_compute; reflexivity |]. split; [vm_compute; reflexivity |].
  split; [vm_compute; reflexivity |].
  split; [rewrite Hk in Hpos; apply Hpos; lia |].
  split; vm_compute; reflexivity.
Defined.

(** ** Bounds in the receiver *)

(** [strcmp] leaves two arrays of the same length only when they are equal
    and hold no zero. *)
Lemma strcmp_ne_None a : forall b,
  length a = length b -> strcmp_ne a b = None -> a = b /\ 0 ∉ a.
Proof.
  induction a as [| x a IH]; intros [| y b] Hlen H; simpl in *;
    try discriminate.
  - split; [reflexivity | apply not_elem_of_nil].
  - destruct (Z.eqb_spec x y) as [-> |]; [| discriminate].
    destruct (Z.eqb_spec y 0) as [| Hy]; [discriminate |].
    destruct (IH b) as [-> Hz]; [lia | exact H |].
    split; [reflexivity |]. intros Hin.
    apply elem_of_cons in Hin as [Hin | Hin]; [lia | done].
Qed.

Lemma count_slide_range fuel : forall i buf acc k,
  0 <= acc -> acc + Z.of_nat fuel <= 1000 ->
  count_slide fuel i buf acc = Some k -> acc <= k <= acc + Z.of_nat fuel.
Proof.
  induction fuel as [| fuel IH]; intros i buf acc k Ha Hs H; simpl in H.
  - injection H as <-. lia.
  - destruct (rd _ _) as [p |]; simpl in H; [| discriminate].
    destruct (_ =? _); [injection H as <-; lia |].
    rewrite add_small in H by (apply small_in_range; lia).
    apply IH in H; lia.
Qed.

Lemma count_received_defined fuel : forall i buf acc,
  0 <= i -> i + Z.of_nat fuel <= Z.of_nat (length buf) ->
  Forall (fun q => length (payload q) = PAYLOAD_LEN) buf ->
  0 <= acc -> acc + Z.of_nat fuel <= 1000 ->
  exists k, count_received fuel i buf acc = Some k /\
            acc <= k <= acc + Z.of_nat fuel.
Proof.
  induction fuel as [| fuel IH]; intros i buf acc Hi Hlen Hp Ha Hs; simpl.
  - exists acc. split; [reflexivity | lia].
  - destruct (rd_defined buf i) as [p Hrd]; [lia |]. rewrite Hrd. simpl.
    destruct (0 <=? acknum p); [| exists acc; split; [reflexivity | lia]].
    assert (Hlp : length (payload p) = PAYLOAD_LEN).
    { unfold rd in Hrd. destruct (bool_decide _); [| discriminate].
      rewrite Forall_lookup in Hp. exact (Hp _ _ Hrd). }
    destruct (payload p) as [| c rest]; [discriminate |]. simpl.
    destruct (c =? 0); simpl; [exists acc; split; [reflexivity | lia] |].
    rewrite add_small by (apply small_in_range; lia).
    destruct (IH (i + 1) buf (acc + 1)) as (k & Hk & Hb); try lia; try done.
    exists k. split; [exact Hk | lia].
Qed.

Lemma shift_b_loop_defined fuel : forall i k last buf,
  0 <= i -> 0 <= k <= 1000 ->
  i + Z.of_nat fuel <= Z.of_nat (length buf) ->
  Z.of_nat (length buf) <= 1000 ->
  0 <= last -> last + 1 < Z.of_nat (length buf) ->
  Forall (fun q => length (payload q) = PAYLOAD_LEN) buf ->
  exists buf',
    shift_b_loop fuel i k last buf = Some buf' /\
    length buf' = length buf /\
    Forall (fun q => length (payload q) = PAYLOAD_LEN) buf'.
Proof.
  induction fuel as [| fuel IH]; intros i k last buf Hi Hk Hlen Hs Hl Hl1 Hp;
    simpl.
  - eauto.
  - rewrite (add_small i k), (add_small last 1)
      by (unfold CInt.in_range, CInt.INT_MIN, CInt.INT_MAX; lia).
    destruct (Z.leb_spec (i + k) (last + 1)).
    + destruct (rd_defined buf (i + k)) as [p Hrd]; [lia |].
      rewrite Hrd. simpl.
      assert (Hlp : length (payload p) = PAYLOAD_LEN).
      { unfold rd in Hrd. destruct (bool_decide _); [| discriminate].
        rewrite Forall_lookup in Hp. exact (Hp _ _ Hrd). }
      destruct (wr_defined buf i p) as [b1 Hw]; [lia |]. rewrite Hw. simpl.
      pose proof (wr_length _ _ _ _ Hw) as Hl1'.
      assert (Hp1 : Forall (fun q => length (payload q) = PAYLOAD_LEN) b1).
      { unfold wr in Hw. destruct (bool_decide _); [| discriminate].
        injection Hw as <-. by apply Forall_insert. }
      destruct (IH (i + 1) k last b1) as (b2 & H2 & L2 & P2);
        try lia; try done.
      exists b2. split; [exact H2 |]. split; [congruence | exact P2].
    + destruct (IH (i + 1) k last buf) as (b2 & H2 & L2 & P2);
        try lia; try done.
      exists b2. split; [exact H2 |]. split; [exact L2 | exact P2].
Qed.

(** The slot of sequence number 0 in the window of the receiver. *)
Lemma zero_slot_in_bounds base :
  is_seqnum base ->
  in_window base (window_last base) 0 = true ->
  0 <= (if base <=? 0 then 0 -i base else WINDOWSIZE -i base +i 0) <= 4.
Proof.
  intros Hb. seqnum_cases Hb; vm_compute; intros H;
    (discriminate H || (split; discriminate)).
Qed.

(** On a receiver in shape and a packet with a payload of 20 characters,
    [B_input] returns and leaves the receiver in shape, unless [strcmp]
    runs beyond the two payloads it compares. *)
Lemma B_input_in_bounds p s :
  receiver_ok s -> length (payload p) = PAYLOAD_LEN ->
  (exists s' out, B_input p s = Some (s', out) /\ receiver_ok s') \/
  (B_input p s = None /\ (0 ∉ payload p) /\
   exists slot, (slot ∈ buffer_b s) /\ payload slot = payload p).
Proof.
  intros Hok Hlp. pose proof Hok as (Hlen & Hw & He & Hr & Hp).
  unfold B_input.
  destruct (CInt.lnot _); simpl; [| left; by eexists _, _].
  rewrite He. destruct (Z.eqb_spec (seqnum p) 0) as [Hseq |];
    [| left; by eexists _, _].
  rewrite Hseq.
  destruct (in_window _ _ _) eqn:Hin;
    [| left; eexists _, _; split; [reflexivity | done]].
  pose proof (zero_slot_in_bounds _ Hw Hin) as Hidx.
  set (index := if windowfirst s <=? 0 then _ else _) in *.
  set (last := if index <? receivelast s then receivelast s else index).
  assert (Hlast : 0 <= last <= 4)
    by (unfold last; destruct (index <? receivelast s); lia).
  destruct (rd_defined (buffer_b s) index) as [slot Hslot];
    [rewrite Hlen; unfold WINDOWSIZE; lia |].
  cbn [buffer_b set_receivelast set_packets_received].
  rewrite Hslot. cbn [mbind option_bind].
  assert (Hin_slot : slot ∈ buffer_b s).
  { unfold rd in Hslot. destruct (bool_decide _); [| discriminate].
    by eapply list_elem_of_lookup_2. }
  assert (Hls : length (payload slot) = PAYLOAD_LEN).
  { rewrite Forall_lookup in Hp. unfold rd in Hslot.
    destruct (bool_decide _); [| discriminate]. exact (Hp _ _ Hslot). }
  destruct (strcmp_ne (payload slot) (payload p)) as [[|] |] eqn:Hcmp;
    cbn [mbind option_bind].
  - destruct (wr_defined (buffer_b s) index (set_acknum 0 p)) as [b Hb];
      [rewrite Hlen; unfold WINDOWSIZE; lia |].
    rewrite Hb. cbn [mbind option_bind].
    pose proof (wr_length _ _ _ _ Hb) as Hlb.
    assert (Hpb : Forall (fun q => length (payload q) = PAYLOAD_LEN) b).
    { unfold wr in Hb. destruct (bool_decide _); [| discriminate].
      injection Hb as <-. by apply Forall_insert. }
    cbn [seqnum set_acknum windowfirst set_buffer_b].
    destruct (0 =? windowfirst s).
    + unfold deliver_run.
      cbn [buffer_b set_buffer_b receivelast set_receivelast windowfirst
           set_windowfirst].
      change (iterations 0 WINDOWSIZE) with 6%nat.
      destruct (count_received_defined 6 0 b 0) as (k & Hk & Hkb);
        try (rewrite ?Hlb, ?Hlen; unfold WINDOWSIZE; lia); try done.
      rewrite Hk. cbn [mbind option_bind].
      destruct (shift_b_loop_defined 6 0 k last b) as (b2 & H2 & L2 & P2);
        try (rewrite ?Hlb, ?Hlen; unfold WINDOWSIZE; lia); try done.
      fold last. rewrite H2. cbn [mbind option_bind].
      left. eexists _, _. split; [reflexivity |].
      unfold receiver_ok. cbn. split; [congruence |].
      split; [| split; [exact He | split; [exact Hlast | exact P2]]].
      unfold is_seqnum, SEQSPACE in Hw.
      rewrite add_small by (apply small_in_range; lia).
      apply rem_seqspace. lia.
    + cbn [mbind option_bind]. left. eexists _, _. split; [reflexivity |].
      unfold receiver_ok. cbn. fold last.
      split; [congruence |]. split; [exact Hw |]. split; [exact He |].
      split; [exact Hlast | exact Hpb].
  - left. eexists _, _. split; [reflexivity |].
    unfold receiver_ok. cbn. fold last.
    split; [exact Hlen |]. split; [exact Hw |]. split; [exact He |].
    split; [exact Hlast | exact Hp].
  - right. apply strcmp_ne_None in Hcmp as [Heq Hz]; [| congruence].
    split; [reflexivity |]. split; [by rewrite <- Heq |]. eauto.
Qed.

Lemma try_slide_receiver_ok s s' out :
  receiver_ok s -> try_slide s = Some (s', out) -> receiver_ok s'.
Proof.
  intros Hok H. pose proof Hok as (Hlen & Hw & He & Hr & Hp).
  unfold try_slide in H.
  destruct (count_slide _ _ _ _) as [k |] eqn:Hk;
    cbn -[shift_loop clear_loop iterations] in H; [| discriminate].
  change (iterations 0 WINDOWSIZE) with 6%nat in Hk.
  apply count_slide_range in Hk; [| lia | lia].
  destruct (0 <? k); [| by injection H as <- _].
  destruct (shift_loop _ _ _ _) as [x |];
    cbn -[shift_loop clear_loop iterations] in H; [| discriminate].
  destruct (clear_loop _ _ _) as [y |];
    cbn -[shift_loop clear_loop iterations] in H; [| discriminate].
  injection H as <- _. unfold receiver_ok. cbn.
  split; [exact Hlen |].
  split; [| split; [exact He | split; [exact Hr | exact Hp]]].
  unfold is_seqnum, SEQSPACE in Hw.
  rewrite add_small by (apply small_in_range; lia).
  apply rem_seqspace. lia.
Qed.

Lemma step_receiver_ok i s s' out :
  receiver_ok s -> sized_call i -> step i s = Some (s', out) ->
  receiver_ok s'.
Proof.
  intros Hok Hi H. destruct i as [m | p | | p]; simpl in *.
  - unfold A_output in H. destruct (in_window _ _ _).
    + destruct (wr _ _ _) as [b |]; simpl in H; [| discriminate].
      by injection H as <- _.
    + by injection H as <- _.
  - unfold A_input in H.
    destruct (CInt.lnot _); [| by injection H as <- _].
    destruct (in_window _ _ _); [| by injection H as <- _].
    destruct (mark_acked _ _ _) as [s2 |] eqn:Hm; simpl in H; [| discriminate].
    apply (try_slide_receiver_ok s2 _ out); [| exact H].
    unfold mark_acked in Hm.
    destruct (rd _ _) as [slot |]; simpl in Hm; [| discriminate].
    destruct (_ =? _).
    + destruct (wr _ _ _) as [b |]; simpl in Hm; [| discriminate].
      by injection Hm as <-.
    + by injection Hm as <-.
  - unfold A_timerinterrupt in H. destruct (0 <? _).
    + destruct (rd _ _) as [b |]; simpl in H; [| discriminate].
      by injection H as <- _.
    + by injection H as <- _.
  - destruct (B_input_in_bounds p s Hok Hi) as [(s1 & o1 & H1 & Hok1) | [H1 _]].
    + rewrite H1 in H. by injection H as <- _.
    + rewrite H1 in H. discriminate.
Qed.

Lemma initial_receiver_ok : receiver_ok initial_state.
Proof.
  unfold receiver_ok, is_seqnum, SEQSPACE. simpl.
  split; [reflexivity |]. split; [lia |]. split; [reflexivity |].
  split; [lia |]. repeat constructor.
Qed.

(** X15: the only way out of bounds in [B_input].  After any run from the
    initial state in which the packets handed to [B_input] have payloads
    of 20 characters, [B_input] on such a packet returns, and leaves the
    six slots of [buffer_b] and their payloads in shape, unless [strcmp]
    runs beyond the two payloads it compares: the packet's payload then
    holds no zero and is equal to the payload stored in one of the
    slots. *)
Theorem receiver_stays_in_bounds calls : forall s s' out p,
  receiver_ok s -> Forall sized_call calls ->
  run calls s = Some (s', out) -> length (payload p) = PAYLOAD_LEN ->
  receiver_ok s' /\
  ((exists s'' out', B_input p s' = Some (s'', out') /\ receiver_ok s'') \/
   (B_input p s' = None /\ (0 ∉ payload p) /\
    exists slot, (slot ∈ buffer_b s') /\ payload slot = payload p)).
Proof.
  induction calls as [| i calls IH]; intros s s' out p Hok Hall H Hp;
    simpl in H.
  - injection H as <- <-. split; [exact Hok |]. by apply B_input_in_bounds.
  - inversion_clear Hall as [| ? ? Hi Hrest].
    destruct (step i s) as [[s1 out1] |] eqn:H1; simpl in H; [| discriminate].
    destruct (run calls s1) as [[s2 out2] |] eqn:H2; simpl in H;
      [| discriminate].
    injection H as <- <-.
    apply (IH s1 s2 out2 p); [| done | done | done].
    exact (step_receiver_ok _ _ _ _ Hok Hi H1).
Qed.

Lemma receiver_stays_in_bounds_witness :
  let calls := [Call_A_output (msg_of 97); Call_B_input garbled_pkt0] in
  receiver_ok initial_state /\ Forall sized_call calls /\
  length (payload garbled_pkt0) = PAYLOAD_LEN /\
  exists s' out,
    run calls initial_state = Some (s', out) /\ receiver_ok s' /\
    exists s'' out', B_input garbled_pkt0 s' = Some (s'', out').
Proof.
  intros calls.
  assert (Hall : Forall sized_call calls).
  { repeat (apply List.Forall_cons); try apply List.Forall_nil;
      first [exact I | reflexivity]. }
  assert (Hp : length (payload garbled_pkt0) = PAYLOAD_LEN) by reflexivity.
  split; [exact initial_receiver_ok |]. split; [exact Hall |].
  split; [exact Hp |].
  destruct (run calls initial_state) as [[s' out] |] eqn:H;
    [| vm_compute in H; discriminate H].
  exists s', out. split; [reflexivity |].
  destruct (receiver_stays_in_bounds calls _ _ _ garbled_pkt0
              initial_receiver_ok Hall H Hp) as [Hok [(s2 & o2 & H2 & _) | [H2 _]]].
  - split; [exact Hok |]. by exists s2, o2.
  - vm_compute in H. injection H as <- _. vm_compute in H2. discriminate H2.
Defined.

(** The exception occurs: with the base at 6 the receiver stores the
    packet in slot 0 without moving its window, and when the same packet
    arrives again [strcmp] finds no difference and no zero within the 20
    characters. *)
Lemma receiver_strcmp_overrun :
  let s := state_of (B_input garbled_pkt0 base6_state) in
  B_input garbled_pkt0 base6_state <> None /\
  B_input garbled_pkt0 s = None.
Proof. vm_compute. split; [discriminate | reflexivity]. Qed.
